(** * payment_dashboard: the audited update engine, the listing and the
      statistics of [backend/app.py]

    A shallow embedding of the Flask handlers [update_transaction],
    [get_transactions], [get_transaction], [recent] and [stats] over an
    in-memory document store, and of the requests the operator console of
    [frontend/qt_client.py] sends them ([search], [save_changes]), with the
    properties of the specification that concern them and further properties
    read off the code.

    Modelling conventions.
    - A Python dict is an association list in insertion order ([dict]); the
      assignment [d[k] = v] is [dict_set], which overwrites in place or
      appends. The dicts built by the handlers never hold a key twice.
    - Field values are the scalar values of JSON and BSON: [None], booleans,
      integers, floats, strings, datetimes and ObjectIds. A float is the
      rational it denotes, or an infinity, or NaN; the handlers only compare
      floats, and the one place where doubles are added, [$sum], rounds to
      binary64 ([sum_result]). Arrays and embedded documents are not values
      of the model.
    - The two MongoDB collections are lists in natural (insertion) order. A
      stored document always has an [_id]; [find_one] and [update_one] act on
      the first match. What is written is read back unchanged (a datetime
      at millisecond precision, where the code reads one back). A write
      fails when a value has no BSON encoding, which for the values of the
      model is an integer outside 64 bits: the handler then raises and Flask
      answers 500. Documents stay below the size limit of BSON, and the store
      is reachable.
    - [datetime.utcnow()] is an oracle [utcnow : nat -> Z]: the n-th reading of
      the clock taken by a request, in microseconds since the epoch. *)

From Stdlib Require Import List String Ascii ZArith QArith Bool Lia.
From Stdlib Require Import Sorted Permutation.
Import ListNotations.

Local Open Scope string_scope.
Local Open Scope Z_scope.
Local Open Scope list_scope.

(** ** Values *)

Inductive pyfloat : Type :=
| FNaN
| FInf (negative : bool)
| FFin (q : Q).

Inductive value : Type :=
| VNone
| VBool (b : bool)
| VInt (z : Z)
| VFloat (f : pyfloat)
| VStr (s : string)
| VDate (t : Z)
| VOid (hex : string).

(** Python's numbers: [bool] is a subclass of [int], and an [int] and a
    [float] are compared by their exact numeric values. *)
Definition num_view (v : value) : option pyfloat :=
  match v with
  | VBool b => Some (FFin (if b then 1%Q else 0%Q))
  | VInt z => Some (FFin (inject_Z z))
  | VFloat f => Some f
  | _ => None
  end.

Definition float_eqb (x y : pyfloat) : bool :=
  match x, y with
  | FFin p, FFin q => Qeq_bool p q
  | FInf a, FInf b => Bool.eqb a b
  | _, _ => false
  end.

(** [a == b] in Python. *)
Definition py_eq (a b : value) : bool :=
  match num_view a, num_view b with
  | Some x, Some y => float_eqb x y
  | None, None =>
      match a, b with
      | VNone, VNone => true
      | VStr s, VStr t => String.eqb s t
      | VDate s, VDate t => Z.eqb s t
      | VOid s, VOid t => String.eqb s t
      | _, _ => false
      end
  | _, _ => false
  end.

(** [a != b] in Python: for these types the negation of [==]. *)
Definition py_ne (a b : value) : bool := negb (py_eq a b).

(** ** Dicts *)

Definition dict : Type := list (string * value).

Fixpoint dict_lookup (k : string) (d : dict) : option value :=
  match d with
  | [] => None
  | (k', v) :: r => if String.eqb k' k then Some v else dict_lookup k r
  end.

(** [d.get(k)]: [None] when the key is missing. *)
Definition dict_get (d : dict) (k : string) : value :=
  match dict_lookup k d with Some v => v | None => VNone end.

(** [d.get(k, default)] *)
Definition dict_get_default (d : dict) (k : string) (default : value) : value :=
  match dict_lookup k d with Some v => v | None => default end.

(** [d[k] = v] *)
Fixpoint dict_set (d : dict) (k : string) (v : value) : dict :=
  match d with
  | [] => [(k, v)]
  | (k', v') :: r =>
      if String.eqb k' k then (k, v) :: r else (k', v') :: dict_set r k v
  end.

Definition keys (d : dict) : list string := map fst d.

(** ** The store *)

(** A stored document: the [_id] MongoDB gave it, and its other fields. *)
Record document : Type := mkDocument
  { doc_id : string;
    doc_fields : dict }.

(** The document as the Python dict pymongo returns. *)
Definition as_dict (d : document) : dict :=
  ("_id", VOid (doc_id d)) :: doc_fields d.

(** One entry of the [edits] collection: the dict literal of
    [update_transaction], whose keys are fixed. *)
Record edit : Type := mkEdit
  { edit_txn_id : string;
    edit_field : string;
    edit_old_value : value;
    edit_new_value : value;
    edit_edited_by : value;
    edit_edited_at : Z }.

Record store : Type := mkStore
  { txns : list document;
    edits : list edit }.

(** The filter [{"txn_id": txn_id}]. *)
Definition matches_txn_id (txn_id : string) (d : document) : bool :=
  match dict_lookup "txn_id" (doc_fields d) with
  | Some (VStr s) => String.eqb s txn_id
  | _ => false
  end.

(** [txns.find_one({"txn_id": txn_id})] *)
Definition find_one (txn_id : string) (coll : list document)
  : option document :=
  find (matches_txn_id txn_id) coll.

(** The update operator [{"$set": update}] on one document. *)
Definition set_field (fs : dict) (kv : string * value) : dict :=
  dict_set fs (fst kv) (snd kv).

Definition set_fields (d : document) (update : dict) : document :=
  mkDocument (doc_id d) (fold_left set_field update (doc_fields d)).

(** The write on the collection: the first match, in place. *)
Fixpoint set_first_match (txn_id : string) (update : dict)
    (coll : list document) : list document :=
  match coll with
  | [] => []
  | d :: r =>
      if matches_txn_id txn_id d then set_fields d update :: r
      else d :: set_first_match txn_id update r
  end.

(** BSON holds an integer in 64 bits at most. Asked to encode another,
    pymongo raises [OverflowError] before anything is sent to the server.
    Every other value of the model has a BSON encoding. *)
Definition int64 (z : Z) : bool :=
  (-9223372036854775808 <=? z) && (z <=? 9223372036854775807).

Definition encodable_value (v : value) : bool :=
  match v with
  | VInt z => int64 z
  | _ => true
  end.

Definition encodable (d : dict) : bool :=
  forallb (fun kv => encodable_value (snd kv)) d.

(** [txns.update_one({"txn_id": txn_id}, {"$set": update})]: the collection
    after the write, or [None] when the call raises and nothing is written. *)
Definition update_one (txn_id : string) (update : dict) (coll : list document)
  : option (list document) :=
  if encodable update then Some (set_first_match txn_id update coll)
  else None.

(** ** Helper: Mongo doc -> JSON-serializable dict *)

Definition doc_to_json (doc : option document) : option dict :=
  match doc with
  | None => None
  | Some d => Some (dict_set (as_dict d) "_id" (VStr (doc_id d)))
  end.

(** ** PUT /api/transactions/<txn_id> *)

(** What the handler answers; 500 is Flask's answer when the handler
    raises. *)
Inductive response : Type :=
| Resp200 (body : option dict)
| Resp400 (error : string)
| Resp404 (error : string)
| Resp500 (error : string).

Definition allowed_fields : list string :=
  ["status"; "amount"; "payee"; "channel"; "remarks"; "operator"].

Definition is_allowed (k : string) : bool :=
  existsb (String.eqb k) allowed_fields.

(** The first loop: [update[k] = v] for the allowed keys of the payload. *)
Definition keep_allowed (update : dict) (kv : string * value) : dict :=
  if is_allowed (fst kv) then dict_set update (fst kv) (snd kv) else update.

Definition filter_update (payload : dict) : dict :=
  fold_left keep_allowed payload [].

(** The second loop, from its [n]-th reading of the clock on. *)
Fixpoint build_changes (utcnow : nat -> Z) (n : nat) (txn_id : string)
    (existing : dict) (payload : dict) (items : dict) : list edit :=
  match items with
  | [] => []
  | (k, v) :: r =>
      let old := dict_get existing k in
      if py_ne old v then
        mkEdit txn_id k old v
          (dict_get_default payload "operator" (VStr "operator_unknown"))
          (utcnow n)
        :: build_changes utcnow (S n) txn_id existing payload r
      else build_changes utcnow n txn_id existing payload r
  end.

(** The handler. [update_one] runs before any [insert_one]: when it raises,
    nothing is written, no event is inserted, and the answer is 500. *)
Definition update_transaction (utcnow : nat -> Z) (st : store)
    (txn_id : string) (payload : dict) : response * store :=
  let update := filter_update payload in
  match update with
  | [] => (Resp400 "No updatable fields provided", st)
  | _ :: _ =>
      match find_one txn_id (txns st) with
      | None => (Resp404 "Transaction not found", st)
      | Some existing =>
          let changes :=
            build_changes utcnow 0 txn_id (as_dict existing) payload update in
          match changes with
          | [] => (Resp200 (doc_to_json (find_one txn_id (txns st))), st)
          | _ :: _ =>
              match update_one txn_id update (txns st) with
              | None => (Resp500 "OverflowError", st)
              | Some written =>
                  let st' := mkStore written (edits st ++ changes) in
                  (Resp200 (doc_to_json (find_one txn_id (txns st'))), st')
              end
          end
      end
  end.

(** The Audit Events a call appended. *)
Definition appended_edits (before after : store) : list edit :=
  skipn (List.length (edits before)) (edits after).

(** ** BSON comparison order

    The order MongoDB sorts and groups by, on the values of the model: Null
    (also a missing field) < numbers < strings < ObjectId < booleans < dates.
    Numbers compare by value whatever their type, NaN below every number. *)

Definition float_compare (x y : pyfloat) : comparison :=
  match x, y with
  | FNaN, FNaN => Eq
  | FNaN, _ => Lt
  | _, FNaN => Gt
  | FInf a, FInf b =>
      match a, b with
      | true, false => Lt
      | false, true => Gt
      | _, _ => Eq
      end
  | FInf a, FFin _ => if a then Lt else Gt
  | FFin _, FInf b => if b then Gt else Lt
  | FFin p, FFin q => Qcompare p q
  end.

Definition bson_rank (v : value) : Z :=
  match v with
  | VNone => 0
  | VInt _ | VFloat _ => 1
  | VStr _ => 2
  | VOid _ => 3
  | VBool _ => 4
  | VDate _ => 5
  end.

Definition bson_number (v : value) : option pyfloat :=
  match v with
  | VInt z => Some (FFin (inject_Z z))
  | VFloat f => Some f
  | _ => None
  end.

Definition bson_compare (a b : value) : comparison :=
  match a, b with
  | VStr s, VStr t => String.compare s t
  | VOid s, VOid t => String.compare s t
  | VBool x, VBool y =>
      match x, y with
      | false, true => Lt
      | true, false => Gt
      | _, _ => Eq
      end
  | VDate s, VDate t => Z.compare s t
  | _, _ =>
      match bson_number a, bson_number b with
      | Some x, Some y => float_compare x y
      | _, _ => Z.compare (bson_rank a) (bson_rank b)
      end
  end.

(** Equality of grouping keys: numbers by value (NaN equal to itself), any
    other value by identity. A number is brought to one representation
    first. *)
Definition bson_norm (v : value) : value :=
  match v with
  | VInt z => VFloat (FFin (Qred (inject_Z z)))
  | VFloat (FFin q) => VFloat (FFin (Qred q))
  | _ => v
  end.

Definition value_eq_dec (a b : value) : {a = b} + {a <> b}.
Proof.
  repeat decide equality; apply string_dec.
Defined.

Definition bson_eqb (a b : value) : bool :=
  if value_eq_dec (bson_norm a) (bson_norm b) then true else false.

Definition bson_ltb (a b : value) : bool :=
  match bson_compare a b with Lt => true | _ => false end.

(** ** GET /api/transactions *)

(** [request.args], with [limit] already converted by [int]. *)
Record query_args : Type := mkArgs
  { arg_txn_id : option string;
    arg_payer : option string;
    arg_payee : option string;
    arg_status : option string;
    arg_limit : option Z }.

(** [if s:] for an optional query parameter: present and not empty. *)
Definition truthy (a : option string) : option string :=
  match a with
  | Some s => if String.eqb s "" then None else Some s
  | None => None
  end.

(** The entries of the query document [q]. *)
Inductive condition : Type :=
| CondEq (field : string) (v : string)
| CondRegexI (field : string) (pattern : string).

Definition build_query (args : query_args) : list condition :=
  (match truthy (arg_txn_id args) with
   | Some s => [CondEq "txn_id" s]
   | None => []
   end)
  ++ (match truthy (arg_payer args) with
      | Some s => [CondRegexI "payer" s]
      | None => []
      end)
  ++ (match truthy (arg_payee args) with
      | Some s => [CondRegexI "payee" s]
      | None => []
      end)
  ++ (match truthy (arg_status args) with
      | Some s => [CondEq "status" s]
      | None => []
      end).

(** *** The [$regex] operator with option [i]

    MongoDB hands the pattern to PCRE. The model covers the patterns made of
    literal ASCII characters and of the wildcard [.]; a pattern with another
    metacharacter or a non-ASCII character is outside it ([None]), and the
    model then does not say what the request answers. A string is a sequence
    of characters, and letters fold by ASCII case. *)

Inductive regex_item : Type :=
| RChar (c : ascii)
| RDot.

Definition regex_metachars : list ascii :=
  list_ascii_of_string "\^$.|?*+()[]{}".

Definition regex_item_of (c : ascii) : option regex_item :=
  if Ascii.eqb c "." then Some RDot
  else if existsb (Ascii.eqb c) regex_metachars then None
  else if (128 <=? nat_of_ascii c)%nat then None
  else Some (RChar c).

Fixpoint regex_compile (pattern : string) : option (list regex_item) :=
  match pattern with
  | EmptyString => Some []
  | String c r =>
      match regex_item_of c, regex_compile r with
      | Some i, Some items => Some (i :: items)
      | _, _ => None
      end
  end.

Definition lower (c : ascii) : ascii :=
  let n := nat_of_ascii c in
  if ((65 <=? n) && (n <=? 90))%nat then ascii_of_nat (n + 32) else c.

Definition item_matches (i : regex_item) (c : ascii) : bool :=
  match i with
  | RChar p => Ascii.eqb (lower p) (lower c)
  | RDot => negb (Ascii.eqb c "010")
  end.

Fixpoint match_here (items : list regex_item) (s : string) : bool :=
  match items, s with
  | [], _ => true
  | i :: r, String c s' => item_matches i c && match_here r s'
  | _ :: _, EmptyString => false
  end.

Fixpoint regex_search (items : list regex_item) (s : string) : bool :=
  match_here items s
  || match s with
     | EmptyString => false
     | String _ s' => regex_search items s'
     end.

(** *** The cursor *)

Inductive matcher : Type :=
| MEq (field : string) (v : string)
| MRegex (field : string) (items : list regex_item).

Definition compile_condition (c : condition) : option matcher :=
  match c with
  | CondEq f v => Some (MEq f v)
  | CondRegexI f p =>
      match regex_compile p with
      | Some items => Some (MRegex f items)
      | None => None
      end
  end.

Fixpoint compile_query (q : list condition) : option (list matcher) :=
  match q with
  | [] => Some []
  | c :: r =>
      match compile_condition c, compile_query r with
      | Some m, Some ms => Some (m :: ms)
      | _, _ => None
      end
  end.

Definition matcher_holds (m : matcher) (d : document) : bool :=
  match m with
  | MEq f v =>
      match dict_lookup f (as_dict d) with
      | Some (VStr s) => String.eqb s v
      | _ => false
      end
  | MRegex f items =>
      match dict_lookup f (as_dict d) with
      | Some (VStr s) => regex_search items s
      | _ => false
      end
  end.

Definition matches_all (ms : list matcher) (d : document) : bool :=
  forallb (fun m => matcher_holds m d) ms.

(** [.sort(field, -1)]: descending. MongoDB leaves the order of documents
    with equal keys open; this insertion sort keeps their natural order. *)
Definition sort_key (field : string) (d : document) : value :=
  dict_get (as_dict d) field.

Fixpoint insert_desc (field : string) (d : document) (l : list document)
  : list document :=
  match l with
  | [] => [d]
  | x :: r =>
      if bson_ltb (sort_key field d) (sort_key field x)
      then x :: insert_desc field d r
      else d :: x :: r
  end.

Definition sort_desc (field : string) (l : list document) : list document :=
  fold_right (insert_desc field) [] l.

(** [.limit(limit)]: 0 is no limit; a negative limit bounds by its absolute
    value. *)
Definition apply_limit {A : Type} (limit : Z) (l : list A) : list A :=
  if limit =? 0 then l else firstn (Z.to_nat (Z.abs limit)) l.

Definition arg_limit_or_default (args : query_args) : Z :=
  match arg_limit args with Some n => n | None => 100 end.

(** [txns.find(q).sort("timestamp", -1).limit(limit)], on the patterns of
    the fragment; [None] outside it. *)
Definition cursor (args : query_args) (coll : list document)
  : option (list document) :=
  match compile_query (build_query args) with
  | None => None
  | Some ms =>
      Some (apply_limit (arg_limit_or_default args)
              (sort_desc "timestamp" (filter (matches_all ms) coll)))
  end.

Definition get_transactions (args : query_args) (st : store)
  : option (list (option dict)) :=
  match cursor args (txns st) with
  | None => None
  | Some docs => Some (map (fun d => doc_to_json (Some d)) docs)
  end.

(** *** The cursor over any [$regex]

    What the store's engine makes of a pattern with option [i] is not code of
    the handler: it is a test on strings, or nothing for a pattern the engine
    rejects, and then the request fails. [cursor_with] is the cursor with the
    engine as a parameter, [model_engine] the engine of the fragment above.
    The limit travels as a BSON integer, in absolute value: outside 64 bits
    the request fails as well. *)

Definition regex_engine : Type := string -> option (string -> bool).

Definition model_engine : regex_engine :=
  fun pattern => option_map regex_search (regex_compile pattern).

Definition condition_test (engine : regex_engine) (c : condition)
  : option (document -> bool) :=
  match c with
  | CondEq f v =>
      Some (fun d => match dict_lookup f (as_dict d) with
                     | Some (VStr s) => String.eqb s v
                     | _ => false
                     end)
  | CondRegexI f p =>
      match engine p with
      | Some test =>
          Some (fun d => match dict_lookup f (as_dict d) with
                         | Some (VStr s) => test s
                         | _ => false
                         end)
      | None => None
      end
  end.

Fixpoint query_tests (engine : regex_engine) (q : list condition)
  : option (list (document -> bool)) :=
  match q with
  | [] => Some []
  | c :: r =>
      match condition_test engine c, query_tests engine r with
      | Some t, Some ts => Some (t :: ts)
      | _, _ => None
      end
  end.

Definition passes (tests : list (document -> bool)) (d : document) : bool :=
  forallb (fun t => t d) tests.

Definition cursor_with (engine : regex_engine) (args : query_args)
    (coll : list document) : option (list document) :=
  if int64 (Z.abs (arg_limit_or_default args)) then
    match query_tests engine (build_query args) with
    | None => None
    | Some tests =>
        Some (apply_limit (arg_limit_or_default args)
                (sort_desc "timestamp" (filter (passes tests) coll)))
    end
  else None.

Definition get_transactions_with (engine : regex_engine) (args : query_args)
    (st : store) : option (list (option dict)) :=
  match cursor_with engine args (txns st) with
  | None => None
  | Some docs => Some (map (fun d => doc_to_json (Some d)) docs)
  end.

(** ** GET /api/stats *)

(** [datetime.utcnow().replace(hour=0, minute=0, second=0, microsecond=0)] *)
Definition today_start (now : Z) : Z := now - now mod 86400000000.

(** [{"$match": {"timestamp": {"$gte": window_start}}}] *)
Definition match_gte_timestamp (window_start : Z) (d : document) : bool :=
  match dict_lookup "timestamp" (as_dict d) with
  | Some (VDate t) => window_start <=? t
  | _ => false
  end.

(** *** binary64

    The double nearest to a rational, ties to even: 53 bits of precision, the
    unit in the last place between 2^-1074 and 2^971, an infinity beyond the
    largest double. *)

Definition round_half_even (n d : Z) : Z :=
  let f := n / d in
  let r2 := 2 * (n mod d) in
  if r2 <? d then f
  else if d <? r2 then f + 1
  else if Z.even f then f else f + 1.

(** [n / d / 2^e] as a fraction. *)
Definition scaled (n d e : Z) : Z * Z :=
  if 0 <=? e then (n, d * 2 ^ e) else (n * 2 ^ (- e), d).

Definition binary64_of_Q (q : Q) : pyfloat :=
  let n := Z.abs (Qnum q) in
  let d := Zpos (Qden q) in
  if n =? 0 then FFin 0
  else
    let e0 := Z.log2 n - Z.log2 d - 52 in
    let e1 := if fst (scaled n d e0) / snd (scaled n d e0) <? 2 ^ 52
              then e0 - 1 else e0 in
    let e := Z.max e1 (-1074) in
    let m := round_half_even (fst (scaled n d e)) (snd (scaled n d e)) in
    if (971 <? e) || ((e =? 971) && (2 ^ 53 <=? m)) then FInf (Qnum q <? 0)
    else
      let sm := if Qnum q <? 0 then - m else m in
      FFin (Qred (if 0 <=? e then inject_Z (sm * 2 ^ e)
                  else sm # Z.to_pos (2 ^ (- e)))).

(** *** The accumulator [$sum]

    MongoDB keeps the running total of a group outside the doubles (integers
    exactly, doubles in a pair of doubles) and gives it a type when the group
    is finished: an integer while every addend was one and the total fits 64
    bits, else a double. The model keeps the exact total ([sum_add]) and
    rounds it once, at the end ([sum_result]), which is what the pair of
    doubles gives as long as it holds the total exactly. *)

Definition float_add (x y : pyfloat) : pyfloat :=
  match x, y with
  | FNaN, _ | _, FNaN => FNaN
  | FInf a, FInf b => if Bool.eqb a b then FInf a else FNaN
  | FInf a, FFin _ => FInf a
  | FFin _, FInf b => FInf b
  | FFin p, FFin q => FFin (p + q)
  end.

(** One step of the accumulator [{"$sum": <expression>}]: a value that is not
    a number is ignored. The total is an integer until a float is added. *)
Definition sum_add (acc v : value) : value :=
  match acc, v with
  | VInt a, VInt b => VInt (a + b)
  | VInt a, VFloat g => VFloat (float_add (FFin (inject_Z a)) g)
  | VFloat f, VInt b => VFloat (float_add f (FFin (inject_Z b)))
  | VFloat f, VFloat g => VFloat (float_add f g)
  | _, _ => acc
  end.

(** The value of a finished [$sum]. *)
Definition sum_result (total : value) : value :=
  match total with
  | VInt z => if int64 z then VInt z else VFloat (binary64_of_Q (inject_Z z))
  | VFloat (FFin q) => VFloat (binary64_of_Q q)
  | v => v
  end.

(** The stage [{"$group": {"_id": key, ...}}] with accumulators of type [A]:
    one pass over the documents, a group per distinct key, in order of first
    appearance. *)
Fixpoint group_add {A : Type} (init : A) (step : A -> A) (k : value)
    (groups : list (value * A)) : list (value * A) :=
  match groups with
  | [] => [(k, step init)]
  | (k', a) :: r =>
      if bson_eqb k' k then (k', step a) :: r
      else (k', a) :: group_add init step k r
  end.

Definition group_stage {A : Type} (key : document -> value) (init : A)
    (step : document -> A -> A) (docs : list document) : list (value * A) :=
  fold_left (fun groups d => group_add init (step d) (key d) groups) docs [].

(** The field path ["$name"]: Null when the field is missing. *)
Definition field_path (name : string) (d : document) : value :=
  dict_get (as_dict d) name.

Definition count_and_volume (d : document) (a : Z * value) : Z * value :=
  (fst a + 1, sum_add (snd a) (field_path "amount" d)).

(** A group of counts and volumes, finished. *)
Definition finish_volume (g : value * (Z * value)) : value * (Z * value) :=
  (fst g, (fst (snd g), sum_result (snd (snd g)))).

Definition pipeline_total (window_start : Z) (coll : list document)
  : list (value * (Z * value)) :=
  map finish_volume
    (group_stage (fun _ => VNone) (0, VInt 0) count_and_volume
       (filter (match_gte_timestamp window_start) coll)).

Definition pipeline_channel (window_start : Z) (coll : list document)
  : list (value * (Z * value)) :=
  map finish_volume
    (group_stage (field_path "channel") (0, VInt 0) count_and_volume
       (filter (match_gte_timestamp window_start) coll)).

Definition pipeline_status (window_start : Z) (coll : list document)
  : list (value * Z) :=
  group_stage (field_path "status") 0 (fun _ n => n + 1)
    (filter (match_gte_timestamp window_start) coll).

(** The body of the response, without [recent_edits] (which no property
    below reads). *)
Record stats_snapshot : Type := mkStats
  { total_count : Z;
    total_volume : value;
    channel_data : list (value * (Z * value));
    status_data : list (value * Z) }.

Definition stats_since (window_start : Z) (st : store) : stats_snapshot :=
  let tot := pipeline_total window_start (txns st) in
  mkStats
    (match tot with r :: _ => fst (snd r) | [] => 0 end)
    (match tot with r :: _ => snd (snd r) | [] => VFloat (FFin 0) end)
    (pipeline_channel window_start (txns st))
    (pipeline_status window_start (txns st)).

Definition stats (now : Z) (st : store) : stats_snapshot :=
  stats_since (today_start now) st.

(** ** Notions of the specification *)

(** The five mutable fields of the data model (section 3). *)
Definition spec_mutable_fields : list string :=
  ["status"; "amount"; "payee"; "channel"; "remarks"].

(** The binding of key [k] is the same in every record of the two
    collections, position by position. *)
Definition key_untouched (k : string) (before after : list document) : Prop :=
  Forall2 (fun d d' => dict_lookup k (as_dict d) = dict_lookup k (as_dict d'))
          before after.

Fixpoint lower_string (s : string) : string :=
  match s with
  | EmptyString => EmptyString
  | String c r => String (lower c) (lower_string r)
  end.

(** Case-insensitive substring. *)
Definition substring_ci (needle hay : string) : Prop :=
  exists pre post : string,
    lower_string hay = (pre ++ lower_string needle ++ post)%string.

(** A filter text without regex metacharacters, in ASCII. *)
Definition plain_text (s : string) : bool :=
  forallb (fun c => negb (existsb (Ascii.eqb c) regex_metachars)
                    && (nat_of_ascii c <? 128)%nat)
          (list_ascii_of_string s).

Definition plain_filter (a : option string) : bool :=
  match truthy a with
  | Some s => plain_text s
  | None => true
  end.

(** A filter text of the modelled regex fragment. *)
Definition supported_pattern (a : option string) : bool :=
  match truthy a with
  | Some s => match regex_compile s with Some _ => true | None => false end
  | None => true
  end.

Definition has_string (field : string) (d : document) (p : string -> Prop)
  : Prop :=
  exists s, dict_lookup field (as_dict d) = Some (VStr s) /\ p s.

(** The pattern, as a regular expression, is found in the string. *)
Definition regex_found (pattern s : string) : Prop :=
  exists items, regex_compile pattern = Some items
                /\ regex_search items s = true.

(** The conjunction of the supplied predicates, with the text predicate
    [text] for [payer] and [payee]. *)
Definition satisfies (text : string -> string -> Prop) (args : query_args)
    (d : document) : Prop :=
  (forall s, truthy (arg_txn_id args) = Some s ->
             dict_lookup "txn_id" (as_dict d) = Some (VStr s))
  /\ (forall s, truthy (arg_payer args) = Some s ->
                has_string "payer" d (text s))
  /\ (forall s, truthy (arg_payee args) = Some s ->
                has_string "payee" d (text s))
  /\ (forall s, truthy (arg_status args) = Some s ->
                dict_lookup "status" (as_dict d) = Some (VStr s)).

(** The engine finds the pattern in the string. *)
Definition engine_found (engine : regex_engine) (pattern s : string) : Prop :=
  exists test, engine pattern = Some test /\ test s = true.

(** An engine that searches a text without metacharacters as a literal,
    whatever the case of its letters. *)
Definition literal_on_plain (engine : regex_engine) : Prop :=
  forall p, plain_text p = true ->
            exists test, engine p = Some test
                         /\ forall s, test s = true <-> substring_ci p s.

(** The texts a request hands to the engine. *)
Definition pattern_of (args : query_args) (p : string) : Prop :=
  truthy (arg_payer args) = Some p \/ truthy (arg_payee args) = Some p.

(** The items of a pattern of literal characters. *)
Fixpoint literal_items (s : string) : list regex_item :=
  match s with
  | EmptyString => []
  | String c r => RChar c :: literal_items r
  end.

(** Descending by the [timestamp] key. *)
Definition timestamp_desc (d1 d2 : document) : Prop :=
  bson_ltb (sort_key "timestamp" d1) (sort_key "timestamp" d2) = false.


(** Two numbers with the same value, whatever their types. *)
Definition number_Q (v : value) : option Q :=
  match v with
  | VInt z => Some (inject_Z z)
  | VFloat (FFin q) => Some q
  | _ => None
  end.

Definition numerically_equal (a b : value) : bool :=
  match number_Q a, number_Q b with
  | Some p, Some q => Qeq_bool p q
  | _, _ => false
  end.

(** A field map none of whose surviving values differs from the record's. *)
Definition all_current (existing : document) (update : dict) : bool :=
  forallb (fun kv => py_eq (dict_get (as_dict existing) (fst kv)) (snd kv))
          update.

(** A field map whose surviving values all equal themselves under [==]
    (NaN alone does not). *)
Definition self_equal (update : dict) : bool :=
  forallb (fun kv => py_eq (snd kv) (snd kv)) update.

(** The events of a list that name field [F]. *)
Definition events_for (F : string) (events : list edit) : list edit :=
  filter (fun e => String.eqb (edit_field e) F) events.

(** *** The statistics, in the words of the specification *)







(** A double: a finite binary64 value. *)
Definition is_binary64 (q : Q) : Prop :=
  exists m e, Z.abs m < 2 ^ 53 /\ -1074 <= e <= 971
              /\ (q == inject_Z m * (if 0 <=? e then inject_Z (2 ^ e)
                                     else 1 # Z.to_pos (2 ^ (- e))))%Q.


(** The accumulators of a group run over its records in order. *)
Definition accumulate {A : Type} (init : A) (step : document -> A -> A)
    (docs : list document) : A :=
  fold_left (fun a d => step d a) docs init.



(** ** Sample data *)

Definition TXN100001 : document :=
  mkDocument "65a1f0c2e4b0a1b2c3d4e5f6"
    [("txn_id", VStr "TXN100001");
     ("payer", VStr "Alice");
     ("payee", VStr "MerchantA");
     ("amount", VFloat (FFin (500 # 1)));
     ("channel", VStr "UPI");
     ("status", VStr "Pending");
     ("timestamp", VDate 1700000000000000);
     ("remarks", VStr "")].

Definition TXN100002 : document :=
  mkDocument "65a1f0c2e4b0a1b2c3d4e5f7"
    [("txn_id", VStr "TXN100002");
     ("payer", VStr "Bob");
     ("payee", VStr "StoreX");
     ("amount", VFloat (FFin (1 # 4)));
     ("channel", VStr "NEFT");
     ("status", VStr "Failed");
     ("timestamp", VDate 1700000100000000);
     ("remarks", VStr "")].

Definition TXN100003 : document :=
  mkDocument "65a1f0c2e4b0a1b2c3d4e5f8"
    [("txn_id", VStr "TXN100003");
     ("payer", VStr "Charlie");
     ("payee", VStr "VendorY");
     ("amount", VFloat (FFin (100 # 1)));
     ("channel", VStr "UPI");
     ("status", VStr "Failed");
     ("timestamp", VDate 1700000050000000);
     ("remarks", VStr "")].

Definition sample_store : store :=
  mkStore [TXN100001; TXN100002; TXN100003] [].





Definition tenth : Q := 3602879701896397 # 36028797018963968.
Definition fifth : Q := 3602879701896397 # 18014398509481984.




(** The update of the scenario of section 8. *)
Definition scenario_payload : dict :=
  [("status", VStr "Success");
   ("amount", VFloat (FFin (500 # 1)));
   ("operator", VStr "alice")].

Definition clock (n : nat) : Z := 1700000200000000 + Z.of_nat n.

(** ** GET /api/transactions/<txn_id> *)

Definition get_transaction (txn_id : string) (st : store) : response :=
  match find_one txn_id (txns st) with
  | None => Resp404 "Transaction not found"
  | Some doc => Resp200 (doc_to_json (Some doc))
  end.

(** ** GET /api/recent *)

Definition recent (st : store) : list (option dict) :=
  map (fun d => doc_to_json (Some d))
      (apply_limit 20 (sort_desc "timestamp" (txns st))).

(** ** The recent edits of GET /api/stats

    [edits.find().sort("edited_at", -1).limit(10)]. A BSON date has
    millisecond precision: the [edited_at] that [update_transaction] wrote is
    read back truncated. The loop that renders each edit ([_id] as a string,
    [edited_at] in ISO format) is not embedded. *)

Definition stored_date (t : Z) : Z := t / 1000 * 1000.

Definition read_edit (e : edit) : edit :=
  mkEdit (edit_txn_id e) (edit_field e) (edit_old_value e) (edit_new_value e)
         (edit_edited_by e) (stored_date (edit_edited_at e)).

Fixpoint insert_edit_desc (e : edit) (l : list edit) : list edit :=
  match l with
  | [] => [e]
  | x :: r =>
      if edit_edited_at e <? edit_edited_at x
      then x :: insert_edit_desc e r
      else e :: x :: r
  end.

Definition sort_edits_desc (l : list edit) : list edit :=
  fold_right insert_edit_desc [] l.

Definition recent_edits_cursor (st : store) : list edit :=
  apply_limit 10 (sort_edits_desc (map read_edit (edits st))).

(** ** frontend/qt_client.py

    The operator console, as far as it decides what is sent to the API: the
    widgets are the fields of a record, a request is the call of its handler
    on the store, and what the handler answers is what the console receives. *)

(** [str.isspace] on the characters of the model. *)
Definition is_space (c : ascii) : bool :=
  let n := nat_of_ascii c in
  (((9 <=? n) && (n <=? 13)) || ((28 <=? n) && (n <=? 32))
   || (n =? 133) || (n =? 160))%nat.

Fixpoint lstrip (s : string) : string :=
  match s with
  | EmptyString => EmptyString
  | String c r => if is_space c then lstrip r else s
  end.

Fixpoint rstrip (s : string) : string :=
  match s with
  | EmptyString => EmptyString
  | String c r =>
      match rstrip r with
      | EmptyString => if is_space c then EmptyString else String c EmptyString
      | r' => String c r'
      end
  end.

(** [s.strip()] *)
Definition strip (s : string) : string := rstrip (lstrip s).

(** A text of whitespace only. *)
Definition blank (s : string) : bool :=
  forallb is_space (list_ascii_of_string s).

(** [q.upper()], folding the letters a to z; no other character has an upper
    case that starts with T, X or N, which is all [search] asks of it. *)
Definition upper (c : ascii) : ascii :=
  let n := nat_of_ascii c in
  if ((97 <=? n) && (n <=? 122))%nat then ascii_of_nat (n - 32) else c.

Fixpoint upper_string (s : string) : string :=
  match s with
  | EmptyString => EmptyString
  | String c r => String (upper c) (upper_string r)
  end.

Inductive api_request : Type :=
| GetRecent
| GetTransactions (params : query_args).

(** The request [search] sends for the text of the search box. *)
Definition search_request (search_input : string) : api_request :=
  let q := strip search_input in
  if String.eqb q "" then GetRecent
  else if String.prefix "TXN" (upper_string q)
       then GetTransactions (mkArgs (Some q) None None None (Some 100))
       else GetTransactions (mkArgs None (Some q) (Some q) None (Some 100)).

(** [load_recent]: the answer of the API whose rows [populate_table]
    shows. *)
Definition load_recent (st : store) : option (list (option dict)) :=
  Some (recent st).

(** [search]: the answer of the API whose rows [populate_table] shows;
    [None] for a search text outside the modelled patterns. *)
Definition search (search_input : string) (st : store)
  : option (list (option dict)) :=
  match search_request search_input with
  | GetRecent => load_recent st
  | GetTransactions params => get_transactions params st
  end.

(** The amount box after [float(text.strip())]: blank, a float, or a text
    [float] rejects. (The texts for NaN and the infinities are left out:
    whether they are sent depends on the version of [requests].) *)
Inductive amount_box : Type :=
| AmountBlank
| AmountValue (q : Q)
| AmountInvalid.

Record form : Type := mkForm
  { current_txn_id : option string;
    payee_input : string;
    amount_input : amount_box;
    channel_input : string;
    status_input : string;
    operator_input : string }.

Definition operator_or_unknown (f : form) : string :=
  let op := strip (operator_input f) in
  if String.eqb op "" then "operator_unknown" else op.

(** The payload of [save_changes], [None] values removed; no payload when
    [float] raises. *)
Definition save_payload (f : form) : option dict :=
  match amount_input f with
  | AmountInvalid => None
  | a =>
      Some ([("payee", VStr (strip (payee_input f)))]
            ++ (match a with
                | AmountValue q => [("amount", VFloat (FFin q))]
                | _ => []
                end)
            ++ [("channel", VStr (channel_input f));
                ("status", VStr (status_input f));
                ("operator", VStr (operator_or_unknown f))])
  end.

Inductive save_outcome : Type :=
| SaveNoSelection
| SaveValueError
| SaveOk (shown : value)
| SaveWarning.

(** A transaction id that travels unchanged in the path of a URL: the code
    puts the id in the path as it is, and the model covers the ids made of
    ASCII letters, digits, [-] and [_] (as the seeded ones are). *)
Definition path_safe (s : string) : bool :=
  forallb (fun c =>
             let n := nat_of_ascii c in
             (((48 <=? n) && (n <=? 57)) || ((65 <=? n) && (n <=? 90))
              || ((97 <=? n) && (n <=? 122)) || (n =? 45) || (n =? 95))%nat)
          (list_ascii_of_string s).

(** [save_changes]: what the console reports, and the store after the
    request; [None] for a selected id outside [path_safe]. *)
Definition save_changes (utcnow : nat -> Z) (f : form) (st : store)
  : option (save_outcome * store) :=
  match truthy (current_txn_id f) with
  | None => Some (SaveNoSelection, st)
  | Some txn_id =>
      match save_payload f with
      | None => Some (SaveValueError, st)
      | Some payload =>
          if path_safe txn_id then
            let result := update_transaction utcnow st txn_id payload in
            match fst result with
            | Resp200 (Some updated) =>
                match dict_lookup "txn_id" updated with
                | Some v => Some (SaveOk v, snd result)
                | None => Some (SaveWarning, snd result)
                end
            | _ => Some (SaveWarning, snd result)
            end
          else None
      end
  end.

(** ** Further notions *)

Definition sum_status_counts (rows : list (value * Z)) : Z :=
  fold_right Z.add 0 (map snd rows).

(** A value other than NaN. *)
Definition not_nan (v : value) : bool :=
  match v with
  | VFloat FNaN => false
  | _ => true
  end.

Definition edit_desc (e1 e2 : edit) : Prop :=
  edit_edited_at e2 <= edit_edited_at e1.

Definition sample_form : form :=
  mkForm (Some "TXN100001") " MerchantB " (AmountValue (500 # 1)) "UPI"
         "Pending" "alice".

Definition sample_edited_store : store :=
  snd (update_transaction clock sample_store "TXN100001" scenario_payload).

(** * Properties *)

(** ** Dicts *)

Section DictFacts.

Lemma dict_lookup_set_same (d : dict) (k : string) (v : value) :
  dict_lookup k (dict_set d k v) = Some v.
Proof.
  induction d as [|[k' v'] r IH]; simpl.
  - now rewrite String.eqb_refl.
  - destruct (String.eqb k' k) eqn:E; simpl.
    + now rewrite String.eqb_refl.
    + now rewrite E.
Qed.

Lemma dict_lookup_set_other (d : dict) (k k' : string) (v : value) :
  k' <> k -> dict_lookup k' (dict_set d k v) = dict_lookup k' d.
Proof.
  intros Hne. induction d as [|[k0 v0] r IH]; simpl.
  - destruct (String.eqb_spec k k'); congruence.
  - destruct (String.eqb_spec k0 k) as [->|Hk]; simpl.
    + destruct (String.eqb_spec k k'); congruence.
    + now rewrite IH.
Qed.

Lemma keys_dict_set (d : dict) (k : string) (v : value) (x : string) :
  In x (keys (dict_set d k v)) -> x = k \/ In x (keys d).
Proof.
  induction d as [|[k0 v0] r IH]; simpl.
  - intros [<-|[]]. now left.
  - destruct (String.eqb_spec k0 k) as [->|Hk]; simpl.
    + intros [<-|H]; auto.
    + intros [<-|H]; auto. destruct (IH H); auto.
Qed.

Lemma NoDup_keys_dict_set (d : dict) (k : string) (v : value) :
  NoDup (keys d) -> NoDup (keys (dict_set d k v)).
Proof.
  induction d as [|[k0 v0] r IH]; simpl; intros Hnd.
  - constructor; [intros [] | constructor].
  - inversion Hnd as [|? ? Hnotin Hr]; subst.
    destruct (String.eqb_spec k0 k) as [->|Hk]; simpl.
    + now constructor.
    + constructor; [|now apply IH].
      intros Hin. apply keys_dict_set in Hin. destruct Hin; auto.
Qed.

Lemma dict_lookup_In (d : dict) (k : string) (v : value) :
  dict_lookup k d = Some v -> In (k, v) d.
Proof.
  induction d as [|[k0 v0] r IH]; simpl; [discriminate|].
  destruct (String.eqb_spec k0 k) as [->|Hk].
  - intros [= ->]. now left.
  - intros H. right. now apply IH.
Qed.

Lemma dict_lookup_None (d : dict) (k : string) :
  ~ In k (keys d) -> dict_lookup k d = None.
Proof.
  induction d as [|[k0 v0] r IH]; simpl; [reflexivity|].
  intros Hn. destruct (String.eqb_spec k0 k) as [->|Hk].
  - exfalso. apply Hn. now left.
  - apply IH. intros H. apply Hn. now right.
Qed.

Lemma In_dict_lookup (d : dict) (k : string) (v : value) :
  NoDup (keys d) -> In (k, v) d -> dict_lookup k d = Some v.
Proof.
  induction d as [|[k0 v0] r IH]; simpl; [intros _ []|].
  intros Hnd Hin. inversion Hnd as [|? ? Hnotin Hr]; subst.
  destruct Hin as [[= -> ->]|Hin].
  - now rewrite String.eqb_refl.
  - destruct (String.eqb_spec k0 k) as [->|Hk].
    + exfalso. apply Hnotin. now apply (in_map fst) in Hin.
    + now apply IH.
Qed.

Lemma In_keys (d : dict) (k : string) (v : value) :
  In (k, v) d -> In k (keys d).
Proof. intros H. now apply (in_map fst) in H. Qed.

(** [$set]: a key not named is left alone, a named key takes its value. *)
Lemma set_fields_other (update fs : dict) (k : string) :
  ~ In k (keys update) ->
  dict_lookup k (fold_left set_field update fs) = dict_lookup k fs.
Proof.
  revert fs. induction update as [|[k0 v0] r IH]; simpl; intros fs Hn.
  - reflexivity.
  - rewrite IH by tauto. unfold set_field; simpl.
    apply dict_lookup_set_other. intros ->. tauto.
Qed.

Lemma set_fields_named (update fs : dict) (k : string) (v : value) :
  NoDup (keys update) -> In (k, v) update ->
  dict_lookup k (fold_left set_field update fs) = Some v.
Proof.
  revert fs. induction update as [|[k0 v0] r IH]; simpl; intros fs Hnd Hin.
  - destruct Hin.
  - inversion Hnd as [|? ? Hnotin Hr]; subst.
    destruct Hin as [[= -> ->]|Hin].
    + rewrite set_fields_other by assumption.
      unfold set_field; simpl. apply dict_lookup_set_same.
    + now apply IH.
Qed.

End DictFacts.

(** ** The allow-list filter *)

Section FilterFacts.

Lemma keep_allowed_NoDup (payload acc : dict) :
  NoDup (keys acc) -> NoDup (keys (fold_left keep_allowed payload acc)).
Proof.
  revert acc. induction payload as [|[k v] r IH]; simpl; intros acc H.
  - assumption.
  - apply IH. unfold keep_allowed; simpl.
    destruct (is_allowed k); [now apply NoDup_keys_dict_set | assumption].
Qed.

Lemma keep_allowed_keys (payload acc : dict) (x : string) :
  In x (keys (fold_left keep_allowed payload acc)) ->
  In x (keys acc) \/ (In x (keys payload) /\ is_allowed x = true).
Proof.
  revert acc. induction payload as [|[k v] r IH]; simpl; intros acc H.
  - now left.
  - apply IH in H. destruct H as [H|[H1 H2]]; [|now right; auto].
    unfold keep_allowed in H; simpl in H.
    destruct (is_allowed k) eqn:E; [|now left].
    apply keys_dict_set in H. destruct H as [->|H]; auto.
Qed.

Lemma keep_allowed_nil (payload acc : dict) :
  fold_left keep_allowed payload acc = [] <->
  acc = [] /\ forall k, In k (keys payload) -> is_allowed k = false.
Proof.
  revert acc. induction payload as [|[k v] r IH]; simpl; intros acc.
  - split; [intros ->; split; [reflexivity | intros k []] | tauto].
  - rewrite IH. unfold keep_allowed; simpl. split.
    + intros [Hacc Hr]. destruct (is_allowed k) eqn:E.
      * destruct acc as [|[k0 v0] acc]; simpl in Hacc; [discriminate|].
        destruct (String.eqb k0 k); discriminate.
      * split; [assumption|]. intros k' [<-|Hin]; auto.
    + intros [-> Hall]. rewrite (Hall k) by now left.
      split; [reflexivity|]. intros k' Hin. apply Hall. now right.
Qed.

Lemma filter_update_NoDup (payload : dict) :
  NoDup (keys (filter_update payload)).
Proof. apply keep_allowed_NoDup. constructor. Qed.

Lemma filter_update_allowed (payload : dict) (k : string) :
  In k (keys (filter_update payload)) ->
  In k (keys payload) /\ is_allowed k = true.
Proof.
  intros H. apply keep_allowed_keys in H. destruct H as [[]|H]. exact H.
Qed.

Lemma filter_update_nil_iff (payload : dict) :
  filter_update payload = [] <->
  forall k, In k (keys payload) -> is_allowed k = false.
Proof.
  unfold filter_update. rewrite keep_allowed_nil. tauto.
Qed.

Lemma is_allowed_In (k : string) :
  is_allowed k = true <-> In k allowed_fields.
Proof.
  unfold is_allowed. rewrite existsb_exists. split.
  - intros [x [Hin Heq]]. apply String.eqb_eq in Heq. now subst.
  - intros H. exists k. split; [assumption | apply String.eqb_refl].
Qed.

Lemma txn_id_not_updated (payload : dict) :
  ~ In "txn_id" (keys (filter_update payload)).
Proof.
  intros H. apply filter_update_allowed in H. destruct H as [_ H].
  discriminate H.
Qed.

Lemma id_not_updated (payload : dict) :
  ~ In "_id" (keys (filter_update payload)).
Proof.
  intros H. apply filter_update_allowed in H. destruct H as [_ H].
  discriminate H.
Qed.

End FilterFacts.

(** ** The diff *)

Section DiffFacts.

Variables (utcnow : nat -> Z) (txn_id : string) (existing payload : dict).

Let operator : value :=
  dict_get_default payload "operator" (VStr "operator_unknown").

Lemma build_changes_In (items : dict) (n : nat) (e : edit) :
  In e (build_changes utcnow n txn_id existing payload items) ->
  In (edit_field e, edit_new_value e) items
  /\ edit_txn_id e = txn_id
  /\ edit_old_value e = dict_get existing (edit_field e)
  /\ py_eq (edit_old_value e) (edit_new_value e) = false
  /\ edit_edited_by e = operator.
Proof.
  revert n. induction items as [|[k v] r IH]; simpl; intros n H.
  - destruct H.
  - unfold py_ne in H.
    destruct (py_eq (dict_get existing k) v) eqn:E; simpl in H.
    + apply IH in H. tauto.
    + destruct H as [<-|H]; simpl.
      * repeat split; auto.
      * apply IH in H. tauto.
Qed.

Lemma build_changes_nil_iff (items : dict) (n : nat) :
  build_changes utcnow n txn_id existing payload items = [] <->
  forall k v, In (k, v) items -> py_eq (dict_get existing k) v = true.
Proof.
  revert n. induction items as [|[k v] r IH]; simpl; intros n.
  - split; [intros _ k v [] | reflexivity].
  - unfold py_ne. destruct (py_eq (dict_get existing k) v) eqn:E; simpl.
    + rewrite IH. split.
      * intros H k' v' [[= <- <-]|Hin]; auto.
      * intros H k' v' Hin. apply H. now right.
    + split; [discriminate|]. intros H.
      specialize (H k v (or_introl eq_refl)). congruence.
Qed.

(** No event names a field whose submitted values all equal the current
    one. *)
Lemma build_changes_field_none (items : dict) (n : nat) (F : string) :
  (forall v, In (F, v) items -> py_eq (dict_get existing F) v = true) ->
  events_for F (build_changes utcnow n txn_id existing payload items) = [].
Proof.
  unfold events_for. revert n.
  induction items as [|[k v] r IH]; simpl; intros n H.
  - reflexivity.
  - unfold py_ne. destruct (py_eq (dict_get existing k) v) eqn:E; simpl.
    + apply IH. intros v' Hin. apply H. now right.
    + destruct (String.eqb_spec k F) as [->|Hk].
      * specialize (H v (or_introl eq_refl)). congruence.
      * apply IH. intros v' Hin. apply H. now right.
Qed.

(** A changed field has exactly one event. *)
Lemma build_changes_field_one (items : dict) (n : nat) (F : string)
    (B : value) :
  NoDup (keys items) -> In (F, B) items ->
  py_eq (dict_get existing F) B = false ->
  exists t,
    events_for F (build_changes utcnow n txn_id existing payload items)
    = [mkEdit txn_id F (dict_get existing F) B operator t].
Proof.
  unfold events_for. revert n.
  induction items as [|[k v] r IH]; simpl; intros n Hnd Hin Hne.
  - destruct Hin.
  - inversion Hnd as [|? ? Hnotin Hr]; subst.
    destruct Hin as [[= -> ->]|Hin].
    + unfold py_ne. rewrite Hne. simpl. rewrite String.eqb_refl.
      exists (utcnow n). f_equal. apply (build_changes_field_none r (S n) F).
      intros v Hv. exfalso. apply Hnotin. now apply In_keys in Hv.
    + assert (k <> F) as Hk.
      { intros ->. apply Hnotin. now apply In_keys in Hin. }
      unfold py_ne. destruct (py_eq (dict_get existing k) v); simpl.
      * now apply IH.
      * destruct (String.eqb_spec k F); [contradiction|]. now apply IH.
Qed.

End DiffFacts.

(** ** The store *)

Section StoreFacts.

Lemma lookup_as_dict (k : string) (d : document) :
  dict_lookup k (as_dict d)
  = if String.eqb "_id" k then Some (VOid (doc_id d))
    else dict_lookup k (doc_fields d).
Proof. reflexivity. Qed.

Lemma matches_set_fields (txn_id : string) (d : document) (update : dict) :
  ~ In "txn_id" (keys update) ->
  matches_txn_id txn_id (set_fields d update) = matches_txn_id txn_id d.
Proof.
  intros H. unfold matches_txn_id, set_fields; simpl.
  now rewrite set_fields_other.
Qed.

Lemma find_one_set_first_match (txn_id : string) (update : dict)
    (coll : list document) :
  ~ In "txn_id" (keys update) ->
  find_one txn_id (set_first_match txn_id update coll)
  = option_map (fun d => set_fields d update) (find_one txn_id coll).
Proof.
  intros H. unfold find_one. induction coll as [|d r IH]; simpl.
  - reflexivity.
  - destruct (matches_txn_id txn_id d) eqn:E; simpl.
    + now rewrite matches_set_fields, E.
    + now rewrite E.
Qed.

Lemma set_first_match_untouched (txn_id k : string) (update : dict)
    (coll : list document) :
  ~ In k (keys update) ->
  key_untouched k coll (set_first_match txn_id update coll).
Proof.
  intros H. unfold key_untouched.
  induction coll as [|d r IH]; cbn [set_first_match]; [constructor|].
  destruct (matches_txn_id txn_id d).
  - constructor.
    + cbv beta. rewrite !lookup_as_dict.
      destruct (String.eqb "_id" k); [reflexivity|].
      unfold set_fields. cbn [doc_fields]. now rewrite set_fields_other.
    + clear IH. induction r; constructor; auto.
  - constructor; auto.
Qed.

Lemma key_untouched_refl (k : string) (coll : list document) :
  key_untouched k coll coll.
Proof. induction coll; constructor; auto. Qed.

Lemma appended_edits_app (st : store) (docs : list document)
    (changes : list edit) :
  appended_edits st (mkStore docs (edits st ++ changes)) = changes.
Proof.
  unfold appended_edits; simpl.
  induction (edits st); simpl; auto.
Qed.

Lemma appended_edits_same (st : store) : appended_edits st st = [].
Proof. unfold appended_edits. apply skipn_all. Qed.

End StoreFacts.

(** ** The five outcomes of [update_transaction] *)

Section UpdateOutcomes.

Variables (utcnow : nat -> Z) (st : store) (txn_id : string) (payload : dict).

Lemma update_empty :
  filter_update payload = [] ->
  update_transaction utcnow st txn_id payload
  = (Resp400 "No updatable fields provided", st).
Proof. intros H. unfold update_transaction. now rewrite H. Qed.

Lemma update_missing :
  filter_update payload <> [] ->
  find_one txn_id (txns st) = None ->
  update_transaction utcnow st txn_id payload
  = (Resp404 "Transaction not found", st).
Proof.
  intros H1 H2. unfold update_transaction.
  destruct (filter_update payload); [congruence|]. now rewrite H2.
Qed.

Lemma update_unchanged (existing : document) :
  filter_update payload <> [] ->
  find_one txn_id (txns st) = Some existing ->
  build_changes utcnow 0 txn_id (as_dict existing) payload
    (filter_update payload) = [] ->
  update_transaction utcnow st txn_id payload
  = (Resp200 (doc_to_json (Some existing)), st).
Proof.
  intros H1 H2 H3. unfold update_transaction.
  destruct (filter_update payload) eqn:E; [congruence|].
  now rewrite H2, H3.
Qed.

Lemma update_changed (existing : document) :
  find_one txn_id (txns st) = Some existing ->
  let update := filter_update payload in
  let changes :=
    build_changes utcnow 0 txn_id (as_dict existing) payload update in
  changes <> [] ->
  encodable update = true ->
  update_transaction utcnow st txn_id payload
  = (Resp200 (doc_to_json (Some (set_fields existing update))),
     mkStore (set_first_match txn_id update (txns st)) (edits st ++ changes)).
Proof.
  intros H2. cbv zeta. intros H3 H4. unfold update_transaction, update_one.
  destruct (filter_update payload) as [|p d] eqn:E.
  - exfalso. now apply H3.
  - rewrite H2, H4.
    destruct (build_changes utcnow 0 txn_id (as_dict existing) payload (p :: d))
      eqn:Ec; [congruence|].
    cbn [txns]. rewrite find_one_set_first_match.
    + now rewrite H2.
    + rewrite <- E. apply txn_id_not_updated.
Qed.

(** The write raises: nothing is written and no event is inserted. *)
Lemma update_overflow (existing : document) :
  find_one txn_id (txns st) = Some existing ->
  let update := filter_update payload in
  build_changes utcnow 0 txn_id (as_dict existing) payload update <> [] ->
  encodable update = false ->
  update_transaction utcnow st txn_id payload = (Resp500 "OverflowError", st).
Proof.
  intros H2. cbv zeta. intros H3 H4. unfold update_transaction, update_one.
  destruct (filter_update payload) as [|p d] eqn:E.
  - exfalso. now apply H3.
  - rewrite H2, H4.
    destruct (build_changes utcnow 0 txn_id (as_dict existing) payload (p :: d));
      [congruence | reflexivity].
Qed.

(** What a call appends to the audit trail. *)
Lemma update_appends :
  let st' := snd (update_transaction utcnow st txn_id payload) in
  edits st' = edits st ++ appended_edits st st'
  /\ appended_edits st st'
     = match find_one txn_id (txns st) with
       | Some existing =>
           if encodable (filter_update payload)
           then build_changes utcnow 0 txn_id (as_dict existing) payload
                  (filter_update payload)
           else []
       | None => []
       end.
Proof.
  simpl.
  destruct (filter_update payload) eqn:E.
  - rewrite update_empty by assumption. simpl.
    rewrite appended_edits_same, app_nil_r.
    destruct (find_one txn_id (txns st)); auto.
  - assert (filter_update payload <> []) as Hne by congruence.
    rewrite <- E.
    destruct (find_one txn_id (txns st)) as [existing|] eqn:F.
    + destruct (build_changes utcnow 0 txn_id (as_dict existing) payload
                  (filter_update payload)) eqn:C.
      * rewrite (update_unchanged existing) by assumption. simpl.
        rewrite appended_edits_same, app_nil_r.
        now destruct (encodable (filter_update payload)).
      * destruct (encodable (filter_update payload)) eqn:Henc.
        -- rewrite (update_changed existing)
             by (simpl; congruence || assumption).
           simpl. rewrite appended_edits_app. now rewrite C.
        -- rewrite (update_overflow existing)
             by (simpl; congruence || assumption).
           simpl. now rewrite appended_edits_same, app_nil_r.
    + rewrite update_missing by assumption. simpl.
      now rewrite appended_edits_same, app_nil_r.
Qed.

End UpdateOutcomes.

(** ** The update engine, case by case *)

Section UpdateCases.

Variables (utcnow : nat -> Z) (st : store) (txn_id : string) (payload : dict).

Lemma update_cases :
  let update := filter_update payload in
  let result := update_transaction utcnow st txn_id payload in
  (update = [] /\ result = (Resp400 "No updatable fields provided", st))
  \/ (update <> [] /\ find_one txn_id (txns st) = None
      /\ result = (Resp404 "Transaction not found", st))
  \/ (exists existing,
         update <> [] /\ find_one txn_id (txns st) = Some existing
         /\ build_changes utcnow 0 txn_id (as_dict existing) payload update = []
         /\ result = (Resp200 (doc_to_json (Some existing)), st))
  \/ (exists existing,
         find_one txn_id (txns st) = Some existing
         /\ build_changes utcnow 0 txn_id (as_dict existing) payload update
            <> []
         /\ encodable update = true
         /\ result
            = (Resp200 (doc_to_json (Some (set_fields existing update))),
               mkStore (set_first_match txn_id update (txns st))
                 (edits st
                  ++ build_changes utcnow 0 txn_id (as_dict existing) payload
                       update)))
  \/ (exists existing,
         find_one txn_id (txns st) = Some existing
         /\ build_changes utcnow 0 txn_id (as_dict existing) payload update
            <> []
         /\ encodable update = false
         /\ result = (Resp500 "OverflowError", st)).
Proof.
  cbv zeta. destruct (filter_update payload) eqn:E.
  - left. split; [reflexivity|]. now apply update_empty.
  - rewrite <- E.
    assert (filter_update payload <> []) as Hne by (rewrite E; discriminate).
    destruct (find_one txn_id (txns st)) as [existing|] eqn:F.
    + destruct (build_changes utcnow 0 txn_id (as_dict existing) payload
                  (filter_update payload)) eqn:C.
      * right. right. left. exists existing.
        repeat split; try assumption. now apply update_unchanged.
      * assert (build_changes utcnow 0 txn_id (as_dict existing) payload
                  (filter_update payload) <> []) as Hc
          by (rewrite C; discriminate).
        destruct (encodable (filter_update payload)) eqn:Henc.
        -- right. right. right. left. exists existing.
           repeat split; try assumption. now apply update_changed.
        -- right. right. right. right. exists existing.
           repeat split; try assumption.
           now apply (update_overflow _ _ _ _ existing).
    + right. left. repeat split; try assumption. now apply update_missing.
Qed.

End UpdateCases.

(** ** The update engine *)

Section UpdateEngine.

Lemma all_current_iff (existing : document) (update : dict) :
  all_current existing update = true <->
  forall k v, In (k, v) update ->
              py_eq (dict_get (as_dict existing) k) v = true.
Proof.
  unfold all_current. rewrite forallb_forall. split.
  - intros H k v Hin. exact (H (k, v) Hin).
  - intros H [k v] Hin. now apply H.
Qed.

(** For a field map that is a Python dict, the surviving value of an
    allowed key is the submitted one. *)
Lemma keep_allowed_lookup (payload acc : dict) (k : string) :
  NoDup (keys payload) -> is_allowed k = true ->
  dict_lookup k (fold_left keep_allowed payload acc)
  = match dict_lookup k payload with
    | Some v => Some v
    | None => dict_lookup k acc
    end.
Proof.
  intros Hnd Hk. revert acc.
  induction payload as [|[k0 v0] r IH]; simpl; intros acc; [reflexivity|].
  inversion Hnd as [|? ? Hnotin Hr]; subst. rewrite (IH Hr).
  unfold keep_allowed; simpl.
  destruct (String.eqb_spec k0 k) as [->|Hne].
  - rewrite (dict_lookup_None r k Hnotin), Hk.
    apply dict_lookup_set_same.
  - destruct (dict_lookup k r); [reflexivity|].
    destruct (is_allowed k0); [|reflexivity].
    apply dict_lookup_set_other. congruence.
Qed.

Lemma filter_update_lookup (payload : dict) (k : string) :
  NoDup (keys payload) -> is_allowed k = true ->
  dict_lookup k (filter_update payload) = dict_lookup k payload.
Proof.
  intros Hnd Hk. unfold filter_update.
  rewrite keep_allowed_lookup by assumption.
  now destruct (dict_lookup k payload).
Qed.

Lemma numerically_equal_py_eq (a b : value) :
  numerically_equal a b = true -> py_eq a b = true.
Proof.
  unfold numerically_equal, py_eq.
  destruct a as [| | |[]| | |], b as [| | |[]| | |]; simpl;
    try discriminate; auto.
Qed.

(** The record found after a write carries every surviving value. *)
Lemma set_fields_current (existing : document) (update : dict) :
  NoDup (keys update) -> ~ In "_id" (keys update) ->
  self_equal update = true ->
  all_current (set_fields existing update) update = true.
Proof.
  intros Hnd Hid Hself. apply all_current_iff. intros k v Hin.
  unfold dict_get. rewrite lookup_as_dict.
  destruct (String.eqb_spec "_id" k) as [<-|Hk].
  - exfalso. apply Hid. now apply In_keys in Hin.
  - unfold set_fields. cbn [doc_fields].
    rewrite (set_fields_named update _ k v Hnd Hin).
    unfold self_equal in Hself. rewrite forallb_forall in Hself.
    exact (Hself (k, v) Hin).
Qed.

Lemma doc_to_json_lookup (d : document) (body : dict) (k : string) :
  k <> "_id" -> doc_to_json (Some d) = Some body ->
  dict_lookup k body = dict_lookup k (as_dict d).
Proof.
  intros Hk H. unfold doc_to_json in H.
  assert (body = dict_set (as_dict d) "_id" (VStr (doc_id d))) as ->
    by congruence.
  now apply dict_lookup_set_other.
Qed.

End UpdateEngine.

(** ** Claims on the update engine *)

(** C1, as the specification states it, fails: [operator] is not one of
    the five mutable fields, yet a field map that carries it has it written
    on the record and logged as the field of an Audit Event. *)
Lemma allow_list_five_fields_counterexample :
  ~ (forall utcnow st txn_id payload k,
        In k (keys payload) -> ~ In k spec_mutable_fields ->
        let st' := snd (update_transaction utcnow st txn_id payload) in
        key_untouched k (txns st) (txns st')
        /\ forall e, In e (appended_edits st st') -> edit_field e <> k).
Proof.
  intros H.
  destruct (H clock sample_store "TXN100001" [("operator", VStr "alice")]
              "operator") as [_ H2].
  - now left.
  - intros Hin. repeat (destruct Hin as [Hin|Hin]; [discriminate Hin|]).
    destruct Hin.
  - apply (H2 (mkEdit "TXN100001" "operator" VNone (VStr "alice")
                 (VStr "alice") (clock 0))); [|reflexivity].
    now left.
Qed.

(** C1 (amended): the allow-list of the update has six keys, the five
    mutable fields and [operator]. A key outside these six is dropped before
    the diff: no record has its binding for that key changed, the record
    returned shows the stored binding, and no Audit Event of the call names
    that key as its field. *)
Theorem update_allow_list (utcnow : nat -> Z) (st : store) (txn_id : string)
    (payload : dict) (k : string) :
  is_allowed k = false ->
  let result := update_transaction utcnow st txn_id payload in
  let st' := snd result in
  key_untouched k (txns st) (txns st')
  /\ (forall e, In e (appended_edits st st') -> edit_field e <> k)
  /\ (forall body, fst result = Resp200 (Some body) -> k <> "_id" ->
      exists d, find_one txn_id (txns st) = Some d
                /\ dict_lookup k body = dict_lookup k (as_dict d)).
Proof.
  intros Hk. cbv zeta.
  assert (~ In k (keys (filter_update payload))) as Hnot.
  { intros Hin. apply filter_update_allowed in Hin. destruct Hin. congruence. }
  split; [|split].
  - destruct (update_cases utcnow st txn_id payload)
      as [[_ ->]|[(_ & _ & ->)|[(ex & _ & F & _ & ->)
         |[(ex & F & _ & _ & ->)|(ex & F & _ & _ & ->)]]]];
      cbn [snd txns]; try apply key_untouched_refl.
    now apply set_first_match_untouched.
  - intros e Hin Hfield.
    destruct (update_appends utcnow st txn_id payload) as [_ Happ].
    rewrite Happ in Hin.
    destruct (find_one txn_id (txns st)) as [existing|]; [|destruct Hin].
    destruct (encodable (filter_update payload)); [|destruct Hin].
    apply build_changes_In in Hin. destruct Hin as [Hin _].
    apply In_keys in Hin. congruence.
  - intros body.
    destruct (update_cases utcnow st txn_id payload)
      as [[_ ->]|[(_ & _ & ->)|[(ex & _ & F & _ & ->)
         |[(ex & F & _ & _ & ->)|(ex & F & _ & _ & ->)]]]];
      cbn [fst]; intros Hbody Hid; try discriminate Hbody.
    + exists ex. split; [assumption|].
      assert (doc_to_json (Some ex) = Some body) as Hjson by congruence.
      now apply doc_to_json_lookup.
    + exists ex. split; [assumption|].
      assert (doc_to_json (Some (set_fields ex (filter_update payload)))
              = Some body) as Hjson by congruence.
      rewrite (doc_to_json_lookup _ _ _ Hid Hjson).
      rewrite !lookup_as_dict.
      destruct (String.eqb "_id" k); [reflexivity|].
      unfold set_fields. cbn [doc_fields].
      now apply set_fields_other.
Qed.

Lemma update_allow_list_witness :
  let payload := [("payer", VStr "Mallory"); ("status", VStr "Success")] in
  let result := update_transaction clock sample_store "TXN100001" payload in
  key_untouched "payer" (txns sample_store) (txns (snd result))
  /\ (forall e, In e (appended_edits sample_store (snd result)) ->
      edit_field e <> "payer")
  /\ (forall body, fst result = Resp200 (Some body) -> "payer" <> "_id" ->
      exists d, find_one "TXN100001" (txns sample_store) = Some d
                /\ dict_lookup "payer" body = dict_lookup "payer" (as_dict d)).
Proof.
  exact (update_allow_list clock sample_store "TXN100001"
           [("payer", VStr "Mallory"); ("status", VStr "Success")] "payer"
           eq_refl).
Defined.

(** C2, as the specification states it, fails on its scenario: the update
    [{status: "Success", amount: 500.00, operator: "alice"}] of TXN100001
    does not append exactly one Audit Event. *)
Lemma diff_scenario_counterexample :
  ~ (exists t,
        appended_edits sample_store
          (snd (update_transaction clock sample_store "TXN100001"
                  scenario_payload))
        = [mkEdit "TXN100001" "status" (VStr "Pending") (VStr "Success")
             (VStr "alice") t]).
Proof. intros [t H]. vm_compute in H. discriminate H. Qed.

(** C2 (amended): on an existing record, a surviving field F (one of the
    five mutable fields or [operator]) whose submitted value B differs from
    the current value A gets exactly one Audit Event, with [old_value = A],
    [new_value = B], [field = F] and [edited_by] the operator of the call,
    provided the store can encode every surviving value (a scalar; an integer
    within 64 bits); a surviving field whose value equals the current one gets
    none. When a surviving value cannot be encoded, the write raises and the
    call appends no event and leaves the store as it was. In the scenario the
    record returned has [status = "Success"] and the call appends two events,
    one for [status] (Pending to Success, by alice) and one for [operator]
    (None to alice), and none for [amount]. *)
Theorem update_diff_accuracy :
  (forall utcnow st txn_id payload existing F B,
      find_one txn_id (txns st) = Some existing ->
      dict_lookup F (filter_update payload) = Some B ->
      let A := dict_get (as_dict existing) F in
      let operator :=
        dict_get_default payload "operator" (VStr "operator_unknown") in
      let st' := snd (update_transaction utcnow st txn_id payload) in
      (py_eq A B = false -> encodable (filter_update payload) = true ->
       exists t, events_for F (appended_edits st st')
                 = [mkEdit txn_id F A B operator t])
      /\ (py_eq A B = true -> events_for F (appended_edits st st') = []))
  /\ (forall utcnow st txn_id payload,
         encodable (filter_update payload) = false ->
         let st' := snd (update_transaction utcnow st txn_id payload) in
         st' = st /\ appended_edits st st' = [])
  /\ (let result :=
        update_transaction clock sample_store "TXN100001" scenario_payload in
      (exists body, fst result = Resp200 (Some body)
                    /\ dict_lookup "status" body = Some (VStr "Success"))
      /\ appended_edits sample_store (snd result)
         = [mkEdit "TXN100001" "status" (VStr "Pending") (VStr "Success")
              (VStr "alice") (clock 0);
            mkEdit "TXN100001" "operator" VNone (VStr "alice")
              (VStr "alice") (clock 1)]).
Proof.
  split; [|split].
  - intros utcnow st txn_id payload existing F B Hfind Hlook. cbv zeta.
    destruct (update_appends utcnow st txn_id payload) as [_ Happ].
    rewrite Happ, Hfind. clear Happ.
    pose proof (filter_update_NoDup payload) as Hnd.
    apply dict_lookup_In in Hlook as Hin. split.
    + intros Hne Henc. rewrite Henc. now apply build_changes_field_one.
    + intros Heq. destruct (encodable (filter_update payload)); [|reflexivity].
      apply build_changes_field_none. intros v Hv.
      apply (In_dict_lookup _ _ _ Hnd) in Hv. congruence.
  - intros utcnow st txn_id payload Henc. cbv zeta.
    assert (snd (update_transaction utcnow st txn_id payload) = st) as ->.
    { destruct (update_cases utcnow st txn_id payload)
        as [[_ ->]|[(_ & _ & ->)|[(ex & _ & F & _ & ->)
           |[(ex & F & _ & Henc' & ->)|(ex & F & _ & _ & ->)]]]];
        try reflexivity.
      congruence. }
    split; [reflexivity | apply appended_edits_same].
  - cbv zeta. split.
    + eexists. split; vm_compute; reflexivity.
    + vm_compute. reflexivity.
Qed.

Lemma update_diff_accuracy_witness :
  let st' :=
    snd (update_transaction clock sample_store "TXN100001" scenario_payload) in
  exists t, events_for "status" (appended_edits sample_store st')
            = [mkEdit "TXN100001" "status" (VStr "Pending") (VStr "Success")
                 (VStr "alice") t].
Proof.
  exact (proj1 (proj1 update_diff_accuracy clock sample_store "TXN100001"
                  scenario_payload TXN100001 "status" (VStr "Success")
                  eq_refl eq_refl)
           eq_refl eq_refl).
Defined.



(** C4, as the specification states it, fails: with a field map without
    any allowed key, an update of a missing transaction is not answered
    NotFound. *)
Lemma not_found_first_counterexample :
  ~ (forall utcnow st txn_id payload,
        find_one txn_id (txns st) = None ->
        exists error,
          fst (update_transaction utcnow st txn_id payload) = Resp404 error).
Proof.
  intros H.
  destruct (H clock sample_store "TXN_MISSING" [("unknown_field", VStr "x")]
              eq_refl) as [error Herr].
  discriminate Herr.
Qed.

(** C4 (amended): the empty-update check comes first. An update naming a
    transaction that does not exist fails with NotFound when the field map
    has at least one allowed key, and with InvalidRequest when it has none;
    in both cases nothing is written. *)
Theorem update_missing_record (utcnow : nat -> Z) (st : store)
    (txn_id : string) (payload : dict) :
  find_one txn_id (txns st) = None ->
  update_transaction utcnow st txn_id payload
  = match filter_update payload with
    | [] => (Resp400 "No updatable fields provided", st)
    | _ :: _ => (Resp404 "Transaction not found", st)
    end.
Proof.
  intros Hfind. destruct (filter_update payload) eqn:E.
  - now apply update_empty.
  - apply update_missing; [rewrite E; discriminate | assumption].
Qed.

Lemma update_missing_record_witness :
  update_transaction clock sample_store "TXN_MISSING"
    [("status", VStr "Success")]
  = (Resp404 "Transaction not found", sample_store).
Proof.
  exact (update_missing_record clock sample_store "TXN_MISSING"
           [("status", VStr "Success")] eq_refl).
Defined.



(** C6 (the code departs from it): the guard [old != v] of the diff takes
    NaN for a change every time, NaN being different from itself. On the
    record TXN100001 the update [{amount: NaN}] is logged by the first call
    (500.0 to NaN) and again by the second (NaN to NaN), although the second
    call leaves every record as the first one left it: an event is logged for
    a field that did not change. *)
Theorem update_nan_logged_again :
  let payload := [("amount", VFloat FNaN)] in
  let s1 := snd (update_transaction clock sample_store "TXN100001" payload) in
  let s2 := snd (update_transaction clock s1 "TXN100001" payload) in
  appended_edits sample_store s1
  = [mkEdit "TXN100001" "amount" (VFloat (FFin (500 # 1))) (VFloat FNaN)
       (VStr "operator_unknown") (clock 0)]
  /\ appended_edits s1 s2
     = [mkEdit "TXN100001" "amount" (VFloat FNaN) (VFloat FNaN)
          (VStr "operator_unknown") (clock 0)]
  /\ txns s2 = txns s1.
Proof. cbv zeta. split; [|split]; vm_compute; reflexivity. Qed.

(** C8: field values are compared by value, whatever the numeric type: a
    submitted amount with the same numeric value as the stored one (100 for
    100.0, 500.00 for 500.00) compares equal to it, and the call appends no
    Audit Event for [amount]. *)
Theorem update_amount_numeric (utcnow : nat -> Z) (st : store)
    (txn_id : string) (payload : dict) (existing : document) (B : value) :
  find_one txn_id (txns st) = Some existing ->
  dict_lookup "amount" (filter_update payload) = Some B ->
  numerically_equal (dict_get (as_dict existing) "amount") B = true ->
  py_eq (dict_get (as_dict existing) "amount") B = true
  /\ events_for "amount"
       (appended_edits st (snd (update_transaction utcnow st txn_id payload)))
     = [].
Proof.
  intros Hfind Hlook Hnum. apply numerically_equal_py_eq in Hnum.
  split; [assumption|].
  destruct (update_appends utcnow st txn_id payload) as [_ Happ].
  rewrite Happ, Hfind.
  destruct (encodable (filter_update payload)); [|reflexivity].
  apply build_changes_field_none. intros v Hv.
  apply (In_dict_lookup _ _ _ (filter_update_NoDup payload)) in Hv.
  congruence.
Qed.

Lemma update_amount_numeric_witness :
  py_eq (VFloat (FFin (100 # 1))) (VInt 100) = true
  /\ events_for "amount"
       (appended_edits sample_store
          (snd (update_transaction clock sample_store "TXN100003"
                  [("amount", VInt 100); ("status", VStr "Success")])))
     = [].
Proof.
  exact (update_amount_numeric clock sample_store "TXN100003"
           [("amount", VInt 100); ("status", VStr "Success")] TXN100003
           (VInt 100) eq_refl eq_refl eq_refl).
Defined.

(** ** The regex fragment and substrings *)

Section RegexFacts.

Lemma plain_text_compile (s : string) :
  plain_text s = true -> regex_compile s = Some (literal_items s).
Proof.
  unfold plain_text. induction s as [|c r IH]; [reflexivity|].
  cbn [list_ascii_of_string forallb regex_compile].
  intros H. apply andb_true_iff in H as [Hc Hr].
  apply andb_true_iff in Hc as [Hmeta Hascii].
  rewrite (IH Hr). unfold regex_item_of.
  apply negb_true_iff in Hmeta.
  assert (Ascii.eqb c "." = false) as ->.
  { destruct (Ascii.eqb_spec c "."%char) as [->|];
      [discriminate Hmeta | reflexivity]. }
  rewrite Hmeta.
  apply Nat.ltb_lt in Hascii.
  destruct (Nat.leb_spec 128 (nat_of_ascii c)); [lia | reflexivity].
Qed.

Lemma match_here_literal (p h : string) :
  match_here (literal_items p) h = true <->
  exists post, lower_string h = (lower_string p ++ post)%string.
Proof.
  revert h. induction p as [|c r IH]; intros h; simpl.
  - split; [intros _; now exists (lower_string h) | reflexivity].
  - destruct h as [|c' h']; simpl.
    + split; [discriminate | intros [post H]; discriminate H].
    + rewrite andb_true_iff, IH. split.
      * intros [Hc [post Hpost]]. apply Ascii.eqb_eq in Hc.
        exists post. now rewrite Hpost, Hc.
      * intros [post H]. injection H as Hc Hr. split.
        -- rewrite Hc. apply Ascii.eqb_refl.
        -- now exists post.
Qed.

Lemma regex_search_literal (p h : string) :
  regex_search (literal_items p) h = true <-> substring_ci p h.
Proof.
  unfold substring_ci. induction h as [|c h' IH]; simpl.
  - rewrite orb_false_r, match_here_literal. split.
    + intros [post H]. now exists EmptyString, post.
    + intros [pre [post H]]. destruct pre as [|c pre]; simpl in H.
      * now exists post.
      * discriminate H.
  - rewrite orb_true_iff, IH.
    rewrite (match_here_literal p (String c h')). simpl. split.
    + intros [[post H]|[pre [post H]]].
      * now exists EmptyString, post.
      * exists (String (lower c) pre), post. simpl. now rewrite H.
    + intros [pre [post H]]. destruct pre as [|c0 pre]; simpl in H.
      * left. now exists post.
      * right. injection H as _ H. now exists pre, post.
Qed.

(** On a text without metacharacters the regex search is the
    case-insensitive substring test. *)
Lemma regex_found_plain (p h : string) :
  plain_text p = true -> (regex_found p h <-> substring_ci p h).
Proof.
  intros Hp. unfold regex_found. rewrite (plain_text_compile p Hp). split.
  - intros [items [[= <-] H]]. now apply regex_search_literal.
  - intros H. exists (literal_items p). split; [reflexivity|].
    now apply regex_search_literal.
Qed.

End RegexFacts.

(** ** Sorting and limiting *)

Section SortFacts.

Lemma float_compare_antisym (x y : pyfloat) :
  float_compare y x = CompOpp (float_compare x y).
Proof.
  destruct x as [|[]|p], y as [|[]|q]; simpl; try reflexivity.
  symmetry. apply Qcompare_antisym.
Qed.

Lemma bson_compare_antisym (a b : value) :
  bson_compare b a = CompOpp (bson_compare a b).
Proof.
  destruct a as [|x|x|x|x|x|x], b as [|y|y|y|y|y|y];
    cbn [bson_compare bson_number bson_rank]; try reflexivity;
    try apply float_compare_antisym.
  - now destruct x, y.
  - apply String.compare_antisym.
  - apply Z.compare_antisym.
  - apply String.compare_antisym.
Qed.

Lemma bson_ltb_asym (a b : value) :
  bson_ltb a b = true -> bson_ltb b a = false.
Proof.
  unfold bson_ltb. rewrite (bson_compare_antisym a b).
  now destruct (bson_compare a b).
Qed.

Variable field : string.

Let desc (d1 d2 : document) : Prop :=
  bson_ltb (sort_key field d1) (sort_key field d2) = false.

Lemma insert_desc_HdRel (x d : document) (l : list document) :
  desc x d -> HdRel desc x l -> HdRel desc x (insert_desc field d l).
Proof.
  intros Hxd Hl. destruct l as [|y r]; simpl.
  - now constructor.
  - destruct (bson_ltb (sort_key field d) (sort_key field y));
      constructor; [now inversion Hl | assumption].
Qed.

Lemma insert_desc_Sorted (d : document) (l : list document) :
  Sorted desc l -> Sorted desc (insert_desc field d l).
Proof.
  induction l as [|x r IH]; simpl; intros Hs.
  - constructor; constructor.
  - inversion Hs as [|? ? Hr Hhd]; subst.
    destruct (bson_ltb (sort_key field d) (sort_key field x)) eqn:E.
    + constructor; [now apply IH|].
      apply insert_desc_HdRel; [|assumption].
      now apply bson_ltb_asym.
    + constructor; [assumption|]. now constructor.
Qed.

Lemma sort_desc_Sorted (l : list document) : Sorted desc (sort_desc field l).
Proof.
  induction l as [|d r IH]; simpl; [constructor|].
  now apply insert_desc_Sorted.
Qed.

Lemma insert_desc_Permutation (d : document) (l : list document) :
  Permutation (insert_desc field d l) (d :: l).
Proof.
  induction l as [|x r IH]; simpl; [reflexivity|].
  destruct (bson_ltb (sort_key field d) (sort_key field x)); [|reflexivity].
  rewrite IH. apply perm_swap.
Qed.

Lemma sort_desc_Permutation (l : list document) :
  Permutation (sort_desc field l) l.
Proof.
  induction l as [|d r IH]; simpl; [reflexivity|].
  rewrite insert_desc_Permutation. now constructor.
Qed.

Lemma firstn_Sorted (n : nat) (l : list document) :
  Sorted desc l -> Sorted desc (firstn n l).
Proof.
  revert l. induction n as [|n IH]; intros l Hs; simpl; [constructor|].
  destruct l as [|x r]; [constructor|].
  inversion Hs as [|? ? Hr Hhd]; subst.
  constructor; [now apply IH|].
  destruct r as [|y r']; destruct n; simpl; constructor.
  now inversion Hhd.
Qed.

(** Between two records that carry dates, descending is by instant. *)
Lemma desc_dates (d1 d2 : document) (t1 t2 : Z) :
  sort_key field d1 = VDate t1 -> sort_key field d2 = VDate t2 ->
  (desc d1 d2 <-> t2 <= t1).
Proof.
  intros H1 H2. unfold desc, bson_ltb. rewrite H1, H2.
  cbn [bson_compare]. destruct (Z.compare_spec t1 t2); split;
    intros; try lia; try reflexivity; try discriminate.
Qed.

Lemma apply_limit_Sorted (limit : Z) (l : list document) :
  Sorted desc l -> Sorted desc (apply_limit limit l).
Proof.
  intros Hs. unfold apply_limit.
  destruct (limit =? 0); [assumption | now apply firstn_Sorted].
Qed.

End SortFacts.

Section LimitFacts.

Context {A : Type}.

Lemma apply_limit_incl (limit : Z) (l : list A) (x : A) :
  In x (apply_limit limit l) -> In x l.
Proof.
  unfold apply_limit. destruct (limit =? 0); [auto|].
  intros H. rewrite <- (firstn_skipn (Z.to_nat (Z.abs limit)) l).
  apply in_or_app. now left.
Qed.

Lemma apply_limit_length (limit : Z) (l : list A) :
  0 < limit -> Z.of_nat (List.length (apply_limit limit l)) <= limit.
Proof.
  intros Hpos. unfold apply_limit.
  destruct (Z.eqb_spec limit 0); [lia|].
  pose proof (firstn_le_length (Z.to_nat (Z.abs limit)) l). lia.
Qed.

Lemma apply_limit_zero (l : list A) : apply_limit 0 l = l.
Proof. reflexivity. Qed.

End LimitFacts.

(** ** The query document *)

Section QueryFacts.

Lemma compile_query_app (a b : list condition) :
  compile_query (a ++ b)
  = match compile_query a, compile_query b with
    | Some x, Some y => Some (x ++ y)
    | _, _ => None
    end.
Proof.
  induction a as [|c r IH]; cbn [app compile_query].
  - now destruct (compile_query b).
  - rewrite IH. destruct (compile_condition c); [|reflexivity].
    destruct (compile_query r); [|reflexivity].
    now destruct (compile_query b).
Qed.

Lemma matches_all_app (x y : list matcher) (d : document) :
  matches_all (x ++ y) d = matches_all x d && matches_all y d.
Proof. apply forallb_app. Qed.

Lemma eq_part (f : string) (a : option string) :
  exists ms,
    compile_query (match truthy a with
                   | Some s => [CondEq f s]
                   | None => []
                   end) = Some ms
    /\ forall d, matches_all ms d = true <->
                 (forall s, truthy a = Some s ->
                            dict_lookup f (as_dict d) = Some (VStr s)).
Proof.
  destruct (truthy a) as [s|].
  - exists [MEq f s]. split; [reflexivity|]. intros d.
    unfold matches_all. cbn [forallb matcher_holds]. rewrite andb_true_r.
    split.
    + intros H s' [= <-].
      destruct (dict_lookup f (as_dict d)) as [[]|]; try discriminate.
      apply String.eqb_eq in H. now subst.
    + intros H. rewrite (H s eq_refl). apply String.eqb_refl.
  - exists []. split; [reflexivity|]. intros d. split; [discriminate|reflexivity].
Qed.

Lemma regex_part (f : string) (a : option string) :
  supported_pattern a = true ->
  exists ms,
    compile_query (match truthy a with
                   | Some s => [CondRegexI f s]
                   | None => []
                   end) = Some ms
    /\ forall d, matches_all ms d = true <->
                 (forall s, truthy a = Some s ->
                            has_string f d (regex_found s)).
Proof.
  unfold supported_pattern. destruct (truthy a) as [s|].
  - destruct (regex_compile s) as [items|] eqn:E; [intros _|discriminate].
    exists [MRegex f items]. split.
    + cbn [compile_query compile_condition]. now rewrite E.
    + intros d. unfold matches_all. cbn [forallb matcher_holds].
      rewrite andb_true_r. unfold has_string, regex_found. split.
      * intros H s' [= <-].
        destruct (dict_lookup f (as_dict d)) as [[]|]; try discriminate.
        eexists. split; [reflexivity|]. now exists items.
      * intros H. destruct (H s eq_refl) as [x [-> [items' [Hc Hs]]]].
        congruence.
  - intros _. exists []. split; [reflexivity|]. intros d.
    split; [discriminate|reflexivity].
Qed.

Lemma query_compiles (args : query_args) :
  supported_pattern (arg_payer args) = true ->
  supported_pattern (arg_payee args) = true ->
  exists ms,
    compile_query (build_query args) = Some ms
    /\ forall d, matches_all ms d = true <-> satisfies regex_found args d.
Proof.
  intros Hpayer Hpayee. unfold build_query, satisfies.
  destruct (eq_part "txn_id" (arg_txn_id args)) as [m1 [E1 H1]].
  destruct (regex_part "payer" (arg_payer args) Hpayer) as [m2 [E2 H2]].
  destruct (regex_part "payee" (arg_payee args) Hpayee) as [m3 [E3 H3]].
  destruct (eq_part "status" (arg_status args)) as [m4 [E4 H4]].
  exists (m1 ++ m2 ++ m3 ++ m4). split.
  - rewrite !compile_query_app, E1, E2, E3, E4. reflexivity.
  - intros d. rewrite !matches_all_app, !andb_true_iff.
    now rewrite H1, H2, H3, H4.
Qed.

Lemma satisfies_plain (args : query_args) (d : document) :
  plain_filter (arg_payer args) = true ->
  plain_filter (arg_payee args) = true ->
  (satisfies regex_found args d <-> satisfies substring_ci args d).
Proof.
  unfold plain_filter, satisfies, has_string. intros Hpayer Hpayee.
  split; intros (H1 & H2 & H3 & H4); repeat split; auto.
  - intros s Hs. rewrite Hs in Hpayer.
    destruct (H2 s Hs) as [x [Hx Hf]]. exists x. split; [assumption|].
    now apply regex_found_plain.
  - intros s Hs. rewrite Hs in Hpayee.
    destruct (H3 s Hs) as [x [Hx Hf]]. exists x. split; [assumption|].
    now apply regex_found_plain.
  - intros s Hs. rewrite Hs in Hpayer.
    destruct (H2 s Hs) as [x [Hx Hf]]. exists x. split; [assumption|].
    now apply regex_found_plain.
  - intros s Hs. rewrite Hs in Hpayee.
    destruct (H3 s Hs) as [x [Hx Hf]]. exists x. split; [assumption|].
    now apply regex_found_plain.
Qed.

Lemma plain_filter_supported (a : option string) :
  plain_filter a = true -> supported_pattern a = true.
Proof.
  unfold plain_filter, supported_pattern. destruct (truthy a); [|reflexivity].
  intros H. now rewrite (plain_text_compile _ H).
Qed.

End QueryFacts.

(** ** The query document over any engine *)

Section EngineFacts.

Variable engine : regex_engine.

Lemma query_tests_app (a b : list condition) :
  query_tests engine (a ++ b)
  = match query_tests engine a, query_tests engine b with
    | Some x, Some y => Some (x ++ y)
    | _, _ => None
    end.
Proof.
  induction a as [|c r IH]; cbn [app query_tests].
  - now destruct (query_tests engine b).
  - rewrite IH. destruct (condition_test engine c); [|reflexivity].
    destruct (query_tests engine r); [|reflexivity].
    now destruct (query_tests engine b).
Qed.

Lemma passes_app (x y : list (document -> bool)) (d : document) :
  passes (x ++ y) d = passes x d && passes y d.
Proof. apply forallb_app. Qed.

Lemma eq_test_part (f : string) (a : option string) :
  exists ts,
    query_tests engine (match truthy a with
                        | Some s => [CondEq f s]
                        | None => []
                        end) = Some ts
    /\ forall d, passes ts d = true <->
                 (forall s, truthy a = Some s ->
                            dict_lookup f (as_dict d) = Some (VStr s)).
Proof.
  destruct (truthy a) as [s|].
  - eexists. split; [reflexivity|]. intros d.
    unfold passes. cbn [forallb]. rewrite andb_true_r. split.
    + intros H s' [= <-].
      destruct (dict_lookup f (as_dict d)) as [[]|]; try discriminate.
      apply String.eqb_eq in H. now subst.
    + intros H. rewrite (H s eq_refl). apply String.eqb_refl.
  - exists []. split; [reflexivity|]. intros d.
    split; [discriminate|reflexivity].
Qed.

Lemma regex_test_part (f : string) (a : option string) :
  match query_tests engine (match truthy a with
                            | Some s => [CondRegexI f s]
                            | None => []
                            end) with
  | None => exists p, truthy a = Some p /\ engine p = None
  | Some ts =>
      (forall p, truthy a = Some p -> engine p <> None)
      /\ forall d, passes ts d = true <->
                   (forall s, truthy a = Some s ->
                              has_string f d (engine_found engine s))
  end.
Proof.
  destruct (truthy a) as [s|]; cbn [query_tests condition_test].
  - destruct (engine s) as [test|] eqn:E.
    + split; [intros p [= <-]; congruence|]. intros d.
      unfold passes. cbn [forallb]. rewrite andb_true_r.
      unfold has_string, engine_found. split.
      * intros H s' [= <-].
        destruct (dict_lookup f (as_dict d)) as [[]|]; try discriminate.
        eexists. split; [reflexivity|]. now exists test.
      * intros H. destruct (H s eq_refl) as [x [-> [test' [Ht Hs]]]].
        congruence.
    + now exists s.
  - split; [discriminate|]. intros d. split; [discriminate|reflexivity].
Qed.

(** The query either is rejected, for a text the engine rejects, or tests
    the conjunction of the supplied predicates. *)
Lemma query_tests_spec (args : query_args) :
  match query_tests engine (build_query args) with
  | None => exists p, pattern_of args p /\ engine p = None
  | Some tests =>
      (forall p, pattern_of args p -> engine p <> None)
      /\ forall d, passes tests d = true
                   <-> satisfies (engine_found engine) args d
  end.
Proof.
  unfold build_query, satisfies, pattern_of.
  destruct (eq_test_part "txn_id" (arg_txn_id args)) as [m1 [E1 H1]].
  destruct (eq_test_part "status" (arg_status args)) as [m4 [E4 H4]].
  pose proof (regex_test_part "payer" (arg_payer args)) as H2.
  pose proof (regex_test_part "payee" (arg_payee args)) as H3.
  rewrite !query_tests_app, E1, E4.
  destruct (query_tests engine
              match truthy (arg_payer args) with
              | Some s => [CondRegexI "payer" s]
              | None => []
              end) as [m2|].
  - destruct (query_tests engine
                match truthy (arg_payee args) with
                | Some s => [CondRegexI "payee" s]
                | None => []
                end) as [m3|].
    + destruct H2 as [A2 H2], H3 as [A3 H3]. split.
      * intros p [Hp|Hp]; auto.
      * intros d. rewrite !passes_app, !andb_true_iff.
        now rewrite H1, H2, H3, H4.
    + destruct H3 as [p [Hp Hnone]]. exists p. auto.
  - destruct H2 as [p [Hp Hnone]]. exists p. auto.
Qed.

Lemma satisfies_literal (args : query_args) (d : document) :
  literal_on_plain engine ->
  plain_filter (arg_payer args) = true ->
  plain_filter (arg_payee args) = true ->
  satisfies (engine_found engine) args d -> satisfies substring_ci args d.
Proof.
  unfold plain_filter, satisfies, has_string, engine_found.
  intros Hlit Hpayer Hpayee (H1 & H2 & H3 & H4). repeat split; auto.
  - intros s Hs. rewrite Hs in Hpayer.
    destruct (H2 s Hs) as [x [Hx [test [Ht Hf]]]].
    destruct (Hlit s Hpayer) as [test' [Ht' Hsub]].
    exists x. split; [assumption|]. apply Hsub. congruence.
  - intros s Hs. rewrite Hs in Hpayee.
    destruct (H3 s Hs) as [x [Hx [test [Ht Hf]]]].
    destruct (Hlit s Hpayee) as [test' [Ht' Hsub]].
    exists x. split; [assumption|]. apply Hsub. congruence.
Qed.

End EngineFacts.

Section ModelEngine.

(** The engine of the model searches plain texts as literals. *)
Lemma model_engine_literal : literal_on_plain model_engine.
Proof.
  intros p Hp. unfold model_engine. rewrite (plain_text_compile p Hp).
  eexists. split; [reflexivity|]. intros s. apply regex_search_literal.
Qed.

Lemma query_tests_model (q : list condition) :
  match compile_query q, query_tests model_engine q with
  | Some ms, Some tests =>
      forall d, passes tests d = matches_all ms d
  | None, None => True
  | _, _ => False
  end.
Proof.
  induction q as [|c r IH]; cbn [compile_query query_tests].
  - reflexivity.
  - destruct c as [f v|f p]; cbn [compile_condition condition_test].
    + destruct (compile_query r), (query_tests model_engine r); try exact IH.
      intros d. unfold passes, matches_all. cbn [forallb matcher_holds].
      f_equal. apply IH.
    + change (model_engine p)
        with (option_map regex_search (regex_compile p)).
      destruct (regex_compile p); cbn [option_map].
      * destruct (compile_query r), (query_tests model_engine r);
          try exact IH.
        intros d. unfold passes, matches_all. cbn [forallb matcher_holds].
        f_equal. apply IH.
      * exact I.
Qed.

(** On the engine of the model, [cursor_with] is [cursor]. *)
Lemma cursor_with_model (args : query_args) (coll : list document) :
  int64 (Z.abs (arg_limit_or_default args)) = true ->
  cursor_with model_engine args coll = cursor args coll.
Proof.
  intros Hfits. unfold cursor_with, cursor. rewrite Hfits.
  pose proof (query_tests_model (build_query args)) as H.
  destruct (compile_query (build_query args)),
    (query_tests model_engine (build_query args)); try contradiction;
    [|reflexivity].
  do 3 f_equal. apply filter_ext. exact H.
Qed.

End ModelEngine.

(** ** Claims on the listing *)

(** C9, as the specification states it, fails: the [payer] text is a
    regular expression, not a substring. The filter [{payer: "."}] returns the
    record whose payer is "Bob", which has no "." in it. *)
Lemma list_substring_counterexample :
  ~ (forall args coll docs,
        0 < arg_limit_or_default args ->
        cursor args coll = Some docs ->
        Z.of_nat (List.length docs) <= arg_limit_or_default args
        /\ (forall d, In d docs -> satisfies substring_ci args d)
        /\ Sorted timestamp_desc docs).
Proof.
  intros H.
  destruct (H (mkArgs None (Some ".") None None (Some 5)) (txns sample_store)
              [TXN100002; TXN100003; TXN100001] eq_refl eq_refl)
    as (_ & Hsat & _).
  destruct (Hsat TXN100002 (or_introl eq_refl)) as (_ & Hpayer & _).
  destruct (Hpayer "." eq_refl) as [s [Hs Hsub]].
  injection Hs as <-.
  apply regex_search_literal in Hsub. discriminate Hsub.
Qed.

(** C9 (amended): for every filter and every positive limit (one that
    fits the 64 bits of a BSON integer), the listing either fails, which it
    does exactly when the store's regex engine rejects the [payer] or the
    [payee] text, or returns at most [limit] records, each one a stored
    record satisfying the conjunction of the supplied predicates: exact match
    on [txn_id] and on [status], and for [payer] and [payee] a
    case-insensitive regular-expression search of the supplied text, which is
    a case-insensitive substring match when the text has no regex
    metacharacter; an absent or empty filter field constrains nothing. The
    result is sorted by [timestamp] descending. *)
Theorem list_filter_sort_limit (engine : regex_engine) (args : query_args)
    (st : store) :
  0 < arg_limit_or_default args ->
  int64 (arg_limit_or_default args) = true ->
  match cursor_with engine args (txns st) with
  | None =>
      get_transactions_with engine args st = None
      /\ exists p, pattern_of args p /\ engine p = None
  | Some docs =>
      get_transactions_with engine args st
      = Some (map (fun d => doc_to_json (Some d)) docs)
      /\ (forall p, pattern_of args p -> engine p <> None)
      /\ Z.of_nat (List.length docs) <= arg_limit_or_default args
      /\ (forall d, In d docs ->
                    In d (txns st) /\ satisfies (engine_found engine) args d)
      /\ (literal_on_plain engine ->
          plain_filter (arg_payer args) = true ->
          plain_filter (arg_payee args) = true ->
          forall d, In d docs -> satisfies substring_ci args d)
      /\ Sorted timestamp_desc docs
  end.
Proof.
  intros Hlimit Hfits. unfold get_transactions_with, cursor_with.
  rewrite Z.abs_eq by lia. rewrite Hfits.
  pose proof (query_tests_spec engine args) as Hq.
  destruct (query_tests engine (build_query args)) as [tests|].
  - destruct Hq as [Hacc Hsat].
    assert (forall d,
               In d (apply_limit (arg_limit_or_default args)
                       (sort_desc "timestamp" (filter (passes tests) (txns st)))) ->
               In d (txns st) /\ satisfies (engine_found engine) args d) as Hin.
    { intros d Hd. apply apply_limit_incl in Hd.
      apply (Permutation_in _ (sort_desc_Permutation _ _)) in Hd.
      apply filter_In in Hd. destruct Hd as [Hd Hm]. split; [assumption|].
      now apply Hsat. }
    split; [reflexivity|]. split; [exact Hacc|].
    split; [now apply apply_limit_length|]. split; [exact Hin|]. split.
    + intros Hlit Hp1 Hp2 d Hd.
      apply (satisfies_literal engine args d Hlit Hp1 Hp2). now apply Hin.
    + apply apply_limit_Sorted. apply sort_desc_Sorted.
  - split; [reflexivity | exact Hq].
Qed.

Lemma list_filter_sort_limit_witness :
  let args := mkArgs None (Some "B.b") None None (Some 5) in
  cursor_with model_engine args (txns sample_store) = Some [TXN100002]
  /\ get_transactions_with model_engine args sample_store
     = Some [doc_to_json (Some TXN100002)]
  /\ (forall d, In d [TXN100002] ->
                In d (txns sample_store)
                /\ satisfies (engine_found model_engine) args d)
  /\ Sorted timestamp_desc [TXN100002].
Proof.
  cbv zeta.
  pose proof (list_filter_sort_limit model_engine
                (mkArgs None (Some "B.b") None None (Some 5)) sample_store
                eq_refl eq_refl) as H.
  assert (cursor_with model_engine
            (mkArgs None (Some "B.b") None None (Some 5)) (txns sample_store)
          = Some [TXN100002]) as E by reflexivity.
  rewrite E in H. destruct H as (H1 & _ & _ & H2 & _ & H3).
  split; [exact E|]. split; [exact H1|]. split; [exact H2 | exact H3].
Defined.

(** C10: with [limit=0] the result is not bounded: the listing returns
    every record that satisfies the filter, sorted. *)
Theorem list_limit_zero (args : query_args) (st : store) :
  arg_limit args = Some 0 ->
  supported_pattern (arg_payer args) = true ->
  supported_pattern (arg_payee args) = true ->
  exists ms docs,
    compile_query (build_query args) = Some ms
    /\ (forall d, matches_all ms d = true <-> satisfies regex_found args d)
    /\ cursor args (txns st) = Some docs
    /\ get_transactions args st
       = Some (map (fun d => doc_to_json (Some d)) docs)
    /\ Permutation docs (filter (matches_all ms) (txns st))
    /\ List.length docs = List.length (filter (matches_all ms) (txns st))
    /\ (forall d, In d (txns st) -> satisfies regex_found args d -> In d docs)
    /\ Sorted timestamp_desc docs.
Proof.
  intros Hzero Hpayer Hpayee.
  destruct (query_compiles args Hpayer Hpayee) as [ms [Hc Hms]].
  exists ms, (sort_desc "timestamp" (filter (matches_all ms) (txns st))).
  assert (cursor args (txns st)
          = Some (sort_desc "timestamp" (filter (matches_all ms) (txns st))))
    as Hcursor.
  { unfold cursor, arg_limit_or_default. rewrite Hc, Hzero.
    now rewrite apply_limit_zero. }
  pose proof (sort_desc_Permutation "timestamp"
                (filter (matches_all ms) (txns st))) as Hperm.
  split; [exact Hc|]. split; [exact Hms|]. split; [exact Hcursor|].
  split; [unfold get_transactions; now rewrite Hcursor|].
  split; [exact Hperm|]. split; [now apply Permutation_length|]. split.
  - intros d Hd Hsat. apply (Permutation_in _ (Permutation_sym Hperm)).
    apply filter_In. split; [assumption | now apply Hms].
  - apply sort_desc_Sorted.
Qed.

Lemma list_limit_zero_witness :
  let args := mkArgs None None None (Some "Failed") (Some 0) in
  cursor args (txns sample_store) = Some [TXN100002; TXN100003]
  /\ exists ms docs,
    compile_query (build_query args) = Some ms
    /\ (forall d, matches_all ms d = true <-> satisfies regex_found args d)
    /\ cursor args (txns sample_store) = Some docs
    /\ get_transactions args sample_store
       = Some (map (fun d => doc_to_json (Some d)) docs)
    /\ Permutation docs (filter (matches_all ms) (txns sample_store))
    /\ List.length docs
       = List.length (filter (matches_all ms) (txns sample_store))
    /\ (forall d, In d (txns sample_store) ->
                  satisfies regex_found args d -> In d docs)
    /\ Sorted timestamp_desc docs.
Proof.
  split; [reflexivity|].
  apply (list_limit_zero
           (mkArgs None None None (Some "Failed") (Some 0)) sample_store).
  - reflexivity.
  - reflexivity.
  - reflexivity.
Defined.

(** ** The [$group] stage *)

Section KeyFacts.

Lemma bson_eqb_iff (a b : value) :
  bson_eqb a b = true <-> bson_norm a = bson_norm b.
Proof.
  unfold bson_eqb.
  destruct (value_eq_dec (bson_norm a) (bson_norm b)); split;
    congruence || auto.
Qed.




(** A string key groups exactly the records with that string. *)
Lemma bson_eqb_string (s : string) (v : value) :
  bson_eqb (VStr s) v = true <-> v = VStr s.
Proof.
  rewrite bson_eqb_iff. split.
  - destruct v as [| | |[]| | |]; simpl; congruence.
  - intros ->. reflexivity.
Qed.

End KeyFacts.

Lemma filter_none {X : Type} (f : X -> bool) (l : list X) :
  (forall x, In x l -> f x = false) -> filter f l = [].
Proof.
  induction l as [|x r IH]; simpl; intros H; [reflexivity|].
  rewrite (H x (or_introl eq_refl)). apply IH. intros y Hy. apply H. now right.
Qed.

Section GroupFacts.

Context {A : Type}.
Variables (key : document -> value) (init : A) (step : document -> A -> A).

Lemma group_stage_snoc (docs : list document) (d : document) :
  group_stage key init step (docs ++ [d])
  = group_add init (step d) (key d) (group_stage key init step docs).
Proof. unfold group_stage. now rewrite fold_left_app. Qed.

Lemma accumulate_snoc (docs : list document) (d : document) :
  accumulate init step (docs ++ [d]) = step d (accumulate init step docs).
Proof. unfold accumulate. now rewrite fold_left_app. Qed.









End GroupFacts.

(** ** The accumulators *)

Section AccumulatorFacts.

Lemma group_stage_const {A : Type} (init : A) (step : document -> A -> A)
    (docs : list document) :
  group_stage (fun _ => VNone) init step docs
  = match docs with
    | [] => []
    | _ :: _ => [(VNone, accumulate init step docs)]
    end.
Proof.
  induction docs as [|d docs IH] using rev_ind; [reflexivity|].
  rewrite group_stage_snoc, IH, accumulate_snoc.
  destruct docs as [|x r]; reflexivity.
Qed.

Lemma accumulate_count_volume (l : list document) (c : Z) (v : value) :
  accumulate (c, v) count_and_volume l
  = (c + Z.of_nat (List.length l),
     fold_left sum_add (map (field_path "amount") l) v).
Proof.
  unfold accumulate. revert c v.
  induction l as [|d r IH]; intros c v; cbn [fold_left map List.length].
  - f_equal. lia.
  - unfold count_and_volume at 2. cbn [fst snd]. rewrite IH. f_equal. lia.
Qed.








End AccumulatorFacts.

(** ** The statistics against the words of the specification *)

Section SelectedFacts.

Context {X : Type}.



End SelectedFacts.

Section StatsSpec.










End StatsSpec.

(** ** Claim on the statistics *)


(** The sum of the doubles 0.1 and 0.2 is not a double. *)
Lemma tenth_plus_fifth_not_binary64 : ~ is_binary64 (tenth + fifth)%Q.
Proof.
  intros (m & e & Hm & He & H).
  assert (tenth + fifth == 10808639105689191 # 36028797018963968)%Q as E
    by reflexivity.
  rewrite E in H. clear E.
  destruct (Z.leb_spec 0 e) as [Hpos|Hneg].
  - unfold Qeq in H. cbn [Qnum Qden Qmult inject_Z] in H.
    assert (Z.even 10808639105689191 = true) as Hev; [|discriminate Hev].
    replace 10808639105689191
      with (m * 2 ^ e * 1 * 36028797018963968) by lia.
    rewrite Z.even_mul. cbn [Z.even]. apply orb_true_r.
  - unfold Qeq in H. cbn [Qnum Qden Qmult inject_Z] in H.
    rewrite Pos.mul_1_l in H.
    rewrite Z2Pos.id in H by (apply Z.pow_pos_nonneg; lia).
    set (k := - e) in *. assert (1 <= k <= 1074) as Hk by lia.
    destruct (Z.le_gt_cases 55 k) as [Hge|Hlt].
    + replace (2 ^ k) with (2 ^ 55 * 2 ^ (k - 55)) in H
        by (rewrite <- Z.pow_add_r by lia; f_equal; lia).
      change 36028797018963968 with (2 ^ 55) in H.
      assert (m = 10808639105689191 * 2 ^ (k - 55)) as Hm'.
      { assert (0 < 2 ^ 55) by reflexivity. nia. }
      assert (0 < 2 ^ (k - 55)) by (apply Z.pow_pos_nonneg; lia).
      assert (2 ^ 53 = 9007199254740992) as E53 by reflexivity.
      rewrite E53 in Hm. nia.
    + assert (Z.even 10808639105689191 = true) as Hev; [|discriminate Hev].
      assert (10808639105689191 = m * 2 ^ (55 - k)) as ->.
      { replace 36028797018963968 with (2 ^ k * 2 ^ (55 - k)) in H
          by (rewrite <- Z.pow_add_r by lia;
              replace (k + (55 - k)) with 55 by lia; reflexivity).
        assert (0 < 2 ^ k) by (apply Z.pow_pos_nonneg; lia). nia. }
      rewrite Z.even_mul, Z.even_pow by lia. apply orb_true_r.
Qed.



(** * Further properties of the handlers *)

Section DiffShape.

Variables (utcnow : nat -> Z) (txn_id : string) (existing payload : dict).

Lemma build_changes_fields_NoDup (items : dict) (n : nat) :
  NoDup (keys items) ->
  NoDup (map edit_field
           (build_changes utcnow n txn_id existing payload items)).
Proof.
  revert n. induction items as [|[k v] r IH]; simpl; intros n Hnd.
  - constructor.
  - inversion Hnd as [|? ? Hnotin Hr]; subst.
    destruct (py_ne (dict_get existing k) v); [|now apply IH].
    simpl. constructor; [|now apply IH].
    intros Hin. apply in_map_iff in Hin. destruct Hin as [e [He Hin]].
    apply build_changes_In in Hin. destruct Hin as [Hin _].
    apply In_keys in Hin. congruence.
Qed.

Lemma build_changes_clock (items : dict) (n : nat) :
  map edit_edited_at (build_changes utcnow n txn_id existing payload items)
  = map utcnow
      (seq n (List.length
                (build_changes utcnow n txn_id existing payload items))).
Proof.
  revert n. induction items as [|[k v] r IH]; simpl; intros n.
  - reflexivity.
  - destruct (py_ne (dict_get existing k) v); [|apply IH].
    simpl. f_equal. apply IH.
Qed.

End DiffShape.

Section FirstMatch.

Lemma set_first_match_split (txn_id : string) (update : dict)
    (coll : list document) (existing : document) :
  find_one txn_id coll = Some existing ->
  exists pre post,
    coll = pre ++ existing :: post
    /\ (forall x, In x pre -> matches_txn_id txn_id x = false)
    /\ matches_txn_id txn_id existing = true
    /\ set_first_match txn_id update coll
       = pre ++ set_fields existing update :: post.
Proof.
  unfold find_one. induction coll as [|d r IH]; simpl; [discriminate|].
  destruct (matches_txn_id txn_id d) eqn:E.
  - intros [= ->]. exists [], r. repeat split; auto. intros x [].
  - intros H. destruct (IH H) as (pre & post & H1 & H2 & H3 & H4).
    exists (d :: pre), post. simpl. rewrite H1 at 1. rewrite H4.
    repeat split; auto. intros x [<-|Hx]; auto.
Qed.

Lemma found_txn_id (txn_id : string) (coll : list document) (d : document) :
  find_one txn_id coll = Some d ->
  In d coll /\ dict_lookup "txn_id" (as_dict d) = Some (VStr txn_id).
Proof.
  intros H. apply find_some in H. destruct H as [Hin Hm]. split; [assumption|].
  unfold matches_txn_id in Hm. rewrite lookup_as_dict.
  cbn [String.eqb Ascii.eqb Bool.eqb].
  destruct (dict_lookup "txn_id" (doc_fields d)) as [[]|]; try discriminate.
  apply String.eqb_eq in Hm. now subst.
Qed.

End FirstMatch.

(** ** Reading one transaction *)

(** X1: [get_transaction] answers 404 exactly when no record carries the
    requested [txn_id]; otherwise it answers 200 with a stored record of
    that [txn_id], every field as stored but [_id], which is given as a
    string. *)
Theorem get_transaction_spec (txn_id : string) (st : store) :
  (get_transaction txn_id st = Resp404 "Transaction not found"
   <-> forall d, In d (txns st) -> matches_txn_id txn_id d = false)
  /\ ((exists d, In d (txns st) /\ matches_txn_id txn_id d = true) ->
      exists doc body,
        In doc (txns st)
        /\ get_transaction txn_id st = Resp200 (Some body)
        /\ dict_lookup "txn_id" body = Some (VStr txn_id)
        /\ dict_lookup "_id" body = Some (VStr (doc_id doc))
        /\ forall k, k <> "_id" ->
                     dict_lookup k body = dict_lookup k (doc_fields doc)).
Proof.
  unfold get_transaction. split.
  - destruct (find_one txn_id (txns st)) as [doc|] eqn:F.
    + split; [discriminate|]. intros H. apply find_some in F.
      destruct F as [Hin Hm]. rewrite (H doc Hin) in Hm. discriminate.
    + split; [|reflexivity]. intros _. now apply find_none.
  - intros [d [Hin Hm]].
    destruct (find_one txn_id (txns st)) as [doc|] eqn:F.
    + destruct (found_txn_id _ _ _ F) as [Hdoc Hid].
      exists doc, (dict_set (as_dict doc) "_id" (VStr (doc_id doc))).
      split; [assumption|]. split; [reflexivity|]. split; [|split].
      * rewrite dict_lookup_set_other by discriminate. assumption.
      * apply dict_lookup_set_same.
      * intros k Hk. rewrite dict_lookup_set_other by assumption.
        rewrite lookup_as_dict.
        destruct (String.eqb_spec "_id" k); [congruence | reflexivity].
    + unfold find_one in F. rewrite (find_none _ _ F d Hin) in Hm.
      discriminate.
Qed.

Lemma get_transaction_spec_witness :
  exists doc body,
    In doc (txns sample_store)
    /\ get_transaction "TXN100002" sample_store = Resp200 (Some body)
    /\ dict_lookup "txn_id" body = Some (VStr "TXN100002")
    /\ dict_lookup "_id" body = Some (VStr (doc_id doc))
    /\ forall k, k <> "_id" ->
                 dict_lookup k body = dict_lookup k (doc_fields doc).
Proof.
  apply (proj2 (get_transaction_spec "TXN100002" sample_store)).
  exists TXN100002. split; [right; left; reflexivity | reflexivity].
Defined.

(** ** What an update writes *)

(** X2: what a successful update returns is what a read of the same
    [txn_id] returns right after it. *)
Theorem update_then_get (utcnow : nat -> Z) (st : store) (txn_id : string)
    (payload : dict) (body : option dict) :
  fst (update_transaction utcnow st txn_id payload) = Resp200 body ->
  get_transaction txn_id (snd (update_transaction utcnow st txn_id payload))
  = Resp200 body.
Proof.
  unfold get_transaction.
  destruct (update_cases utcnow st txn_id payload)
    as [[_ ->]|[(_ & _ & ->)|[(ex & _ & F & _ & ->)
       |[(ex & F & _ & _ & ->)|(ex & F & _ & _ & ->)]]]];
    cbn [fst snd txns]; try discriminate.
  - rewrite F. auto.
  - rewrite find_one_set_first_match by apply txn_id_not_updated.
    rewrite F. auto.
Qed.

Lemma update_then_get_witness :
  get_transaction "TXN100001"
    (snd (update_transaction clock sample_store "TXN100001" scenario_payload))
  = fst (update_transaction clock sample_store "TXN100001" scenario_payload).
Proof.
  exact (update_then_get clock sample_store "TXN100001" scenario_payload _
           eq_refl).
Defined.

(** X3: when a call logs at least one change, [$set] writes the whole
    surviving field map: the record afterwards binds every surviving key to
    exactly the submitted value, also a key whose value compared equal and
    got no Audit Event, and keeps the binding of every other key. *)
Theorem update_writes_all (utcnow : nat -> Z) (st : store) (txn_id : string)
    (payload : dict) :
  let st' := snd (update_transaction utcnow st txn_id payload) in
  appended_edits st st' <> [] ->
  exists existing updated,
    find_one txn_id (txns st) = Some existing
    /\ find_one txn_id (txns st') = Some updated
    /\ doc_id updated = doc_id existing
    /\ (forall k v, In (k, v) (filter_update payload) ->
                    dict_lookup k (doc_fields updated) = Some v)
    /\ (forall k, ~ In k (keys (filter_update payload)) ->
                  dict_lookup k (doc_fields updated)
                  = dict_lookup k (doc_fields existing)).
Proof.
  cbv zeta.
  destruct (update_cases utcnow st txn_id payload)
    as [[_ ->]|[(_ & _ & ->)|[(ex & _ & F & _ & ->)
       |[(ex & F & _ & _ & ->)|(ex & F & _ & _ & ->)]]]];
    cbn [fst snd]; try (rewrite appended_edits_same; congruence).
  intros _. exists ex, (set_fields ex (filter_update payload)).
  split; [assumption|]. split; [|split; [reflexivity|split]].
  - cbn [txns]. rewrite find_one_set_first_match by apply txn_id_not_updated.
    now rewrite F.
  - intros k v Hin. unfold set_fields. cbn [doc_fields].
    apply set_fields_named; [apply filter_update_NoDup | assumption].
  - intros k Hk. unfold set_fields. cbn [doc_fields].
    now apply set_fields_other.
Qed.

Lemma update_writes_all_witness :
  let payload := [("amount", VInt 100); ("status", VStr "Success")] in
  let st' := snd (update_transaction clock sample_store "TXN100003" payload) in
  events_for "amount" (appended_edits sample_store st') = []
  /\ exists existing updated,
    find_one "TXN100003" (txns sample_store) = Some existing
    /\ find_one "TXN100003" (txns st') = Some updated
    /\ doc_id updated = doc_id existing
    /\ (forall k v, In (k, v) (filter_update payload) ->
                    dict_lookup k (doc_fields updated) = Some v)
    /\ (forall k, ~ In k (keys (filter_update payload)) ->
                  dict_lookup k (doc_fields updated)
                  = dict_lookup k (doc_fields existing)).
Proof.
  cbv zeta. split; [reflexivity|].
  apply (update_writes_all clock sample_store "TXN100003"
           [("amount", VInt 100); ("status", VStr "Success")]).
  vm_compute. discriminate.
Defined.

(** X4: an update writes at most one record, the first in natural order
    that carries the [txn_id]: every other record, a later one with the same
    [txn_id] included, stays as it is, and no record is added, removed or
    moved. *)
Theorem update_writes_first_match (utcnow : nat -> Z) (st : store)
    (txn_id : string) (payload : dict) :
  let st' := snd (update_transaction utcnow st txn_id payload) in
  txns st' = txns st
  \/ exists pre existing post,
       txns st = pre ++ existing :: post
       /\ (forall x, In x pre -> matches_txn_id txn_id x = false)
       /\ matches_txn_id txn_id existing = true
       /\ txns st'
          = pre ++ set_fields existing (filter_update payload) :: post.
Proof.
  cbv zeta.
  destruct (update_cases utcnow st txn_id payload)
    as [[_ ->]|[(_ & _ & ->)|[(ex & _ & F & _ & ->)
       |[(ex & F & _ & _ & ->)|(ex & F & _ & _ & ->)]]]];
    cbn [fst snd txns]; auto.
  right.
  destruct (set_first_match_split txn_id (filter_update payload) _ _ F)
    as (pre & post & H1 & H2 & H3 & H4).
  exists pre, ex, post. auto.
Qed.

(** X5: the audit trail only grows, and the store changes only together
    with it: the events of before are a prefix of those after; a call that
    fails (400 or 404) or appends no event leaves the whole store as it
    was. *)
Theorem update_append_only (utcnow : nat -> Z) (st : store) (txn_id : string)
    (payload : dict) :
  let result := update_transaction utcnow st txn_id payload in
  edits (snd result) = edits st ++ appended_edits st (snd result)
  /\ (forall error, fst result = Resp400 error \/ fst result = Resp404 error ->
                    snd result = st)
  /\ (appended_edits st (snd result) = [] -> snd result = st).
Proof.
  cbv zeta. split; [apply update_appends|].
  destruct (update_cases utcnow st txn_id payload)
    as [[_ ->]|[(_ & _ & ->)|[(ex & _ & F & _ & ->)
       |[(ex & F & Hc & _ & ->)|(ex & F & _ & _ & ->)]]]];
    cbn [fst snd]; auto.
  split.
  - intros error [H|H]; discriminate H.
  - rewrite appended_edits_app. intros H. contradiction.
Qed.

Lemma update_append_only_witness :
  snd (update_transaction clock sample_store "TXN100001"
         [("amount", VInt 500)])
  = sample_store.
Proof.
  apply (proj2 (proj2 (update_append_only clock sample_store "TXN100001"
                         [("amount", VInt 500)]))).
  reflexivity.
Defined.

(** X6: every Audit Event a call appends carries the [txn_id] of the call
    and its operator, names an allowed field, holds as [old_value] the
    record's value of that field before the call and as [new_value] the
    submitted one, and the two differ under [!=]. No two events of a call
    name the same field, so a call appends at most six. *)
Theorem update_events_shape (utcnow : nat -> Z) (st : store)
    (txn_id : string) (payload : dict) :
  let events :=
    appended_edits st (snd (update_transaction utcnow st txn_id payload)) in
  (forall e, In e events ->
     edit_txn_id e = txn_id
     /\ is_allowed (edit_field e) = true
     /\ edit_edited_by e
        = dict_get_default payload "operator" (VStr "operator_unknown")
     /\ dict_lookup (edit_field e) (filter_update payload)
        = Some (edit_new_value e)
     /\ py_ne (edit_old_value e) (edit_new_value e) = true
     /\ exists existing,
          find_one txn_id (txns st) = Some existing
          /\ edit_old_value e = dict_get (as_dict existing) (edit_field e))
  /\ NoDup (map edit_field events)
  /\ (List.length events <= 6)%nat.
Proof.
  cbv zeta.
  destruct (update_appends utcnow st txn_id payload) as [_ ->].
  destruct (find_one txn_id (txns st)) as [existing|];
    [|split; [intros e []|split; [constructor | simpl; lia]]].
  destruct (encodable (filter_update payload));
    [|split; [intros e []|split; [constructor | simpl; lia]]].
  pose proof (filter_update_NoDup payload) as Hnd.
  assert (NoDup (map edit_field
                   (build_changes utcnow 0 txn_id (as_dict existing) payload
                      (filter_update payload)))) as Hfields
    by now apply build_changes_fields_NoDup.
  assert (forall e,
             In e (build_changes utcnow 0 txn_id (as_dict existing) payload
                     (filter_update payload)) ->
             In (edit_field e, edit_new_value e) (filter_update payload)
             /\ is_allowed (edit_field e) = true) as Hin.
  { intros e He. apply build_changes_In in He. destruct He as [He _].
    split; [assumption|]. apply In_keys in He.
    now apply filter_update_allowed in He. }
  split; [|split].
  - intros e He. destruct (Hin e He) as [Hsub Hallow].
    apply build_changes_In in He.
    destruct He as (_ & H1 & H2 & H3 & H4).
    split; [assumption|]. split; [assumption|]. split; [assumption|].
    split; [now apply In_dict_lookup|]. split.
    + unfold py_ne. now rewrite H3.
    + now exists existing.
  - assumption.
  - rewrite <- (length_map edit_field).
    change 6%nat with (List.length allowed_fields).
    apply NoDup_incl_length; [assumption|].
    intros k Hk. apply in_map_iff in Hk. destruct Hk as [e [<- He]].
    apply is_allowed_In. now apply Hin.
Qed.

(** X7: a call whose surviving values the store can encode (every integer
    within 64 bits) appends one event for each surviving field whose value
    differs from the record's, in the order of the field map; a call with a
    surviving value the store cannot encode appends none. The events are
    stamped with the successive readings of the clock, one reading for each
    event. *)
Theorem update_events_clock (utcnow : nat -> Z) (st : store)
    (txn_id : string) (payload : dict) :
  let events :=
    appended_edits st (snd (update_transaction utcnow st txn_id payload)) in
  map edit_edited_at events = map utcnow (seq 0 (List.length events))
  /\ (encodable (filter_update payload) = true ->
      map (fun e => (edit_field e, edit_new_value e)) events
      = filter (fun kv =>
                  match find_one txn_id (txns st) with
                  | Some existing =>
                      py_ne (dict_get (as_dict existing) (fst kv)) (snd kv)
                  | None => false
                  end)
               (filter_update payload))
  /\ (encodable (filter_update payload) = false -> events = []).
Proof.
  cbv zeta.
  destruct (update_appends utcnow st txn_id payload) as [_ ->].
  destruct (find_one txn_id (txns st)) as [existing|].
  - destruct (encodable (filter_update payload)).
    + split; [apply build_changes_clock|]. split; [intros _|discriminate].
      generalize 0%nat as n.
      induction (filter_update payload) as [|[k v] r IH]; simpl; intros n;
        [reflexivity|].
      destruct (py_ne (dict_get (as_dict existing) k) v); simpl;
        [f_equal|]; apply IH.
    + split; [reflexivity|]. split; [discriminate | reflexivity].
  - split; [reflexivity|]. split; [intros _ | reflexivity].
    induction (filter_update payload); simpl; auto.
Qed.

Lemma update_events_clock_witness :
  map (fun e => (edit_field e, edit_new_value e))
    (appended_edits sample_store
       (snd (update_transaction clock sample_store "TXN100001"
               scenario_payload)))
  = [("status", VStr "Success"); ("operator", VStr "alice")]
  /\ appended_edits sample_store
       (snd (update_transaction clock sample_store "TXN100001"
               [("status", VStr "Success");
                ("amount", VInt 18446744073709551616)]))
     = [].
Proof.
  split.
  - exact (proj1 (proj2 (update_events_clock clock sample_store "TXN100001"
                           scenario_payload))
             eq_refl).
  - exact (proj2 (proj2 (update_events_clock clock sample_store "TXN100001"
                           [("status", VStr "Success");
                            ("amount", VInt 18446744073709551616)]))
             eq_refl).
Defined.

Lemma update_writes_first_match_witness :
  let st' :=
    snd (update_transaction clock sample_store "TXN100003" scenario_payload) in
  txns st' = txns sample_store
  \/ exists pre existing post,
       txns sample_store = pre ++ existing :: post
       /\ (forall x, In x pre -> matches_txn_id "TXN100003" x = false)
       /\ matches_txn_id "TXN100003" existing = true
       /\ txns st'
          = pre ++ set_fields existing (filter_update scenario_payload) :: post.
Proof.
  exact (update_writes_first_match clock sample_store "TXN100003"
           scenario_payload).
Defined.

Lemma update_events_shape_witness :
  let events :=
    appended_edits sample_store
      (snd (update_transaction clock sample_store "TXN100001"
              scenario_payload)) in
  List.length events = 2%nat /\ NoDup (map edit_field events).
Proof.
  cbv zeta. split; [reflexivity|].
  exact (proj1 (proj2 (update_events_shape clock sample_store "TXN100001"
                         scenario_payload))).
Defined.

(** ** The listings *)

Section ListingFacts.

Lemma cursor_no_filter (limit : Z) (coll : list document) :
  cursor (mkArgs None None None None (Some limit)) coll
  = Some (apply_limit limit (sort_desc "timestamp" coll)).
Proof.
  unfold cursor. cbn [build_query truthy arg_txn_id arg_payer arg_payee
                        arg_status app compile_query arg_limit_or_default
                        arg_limit].
  f_equal. f_equal. f_equal.
  induction coll as [|d r IH]; [reflexivity|].
  cbn [filter matches_all forallb]. now rewrite IH.
Qed.

Lemma firstn_all_length {X : Type} (n : nat) (l : list X) :
  (List.length l <= n)%nat -> firstn n l = l.
Proof. intros H. now apply firstn_all2. Qed.

End ListingFacts.

(** X8: the recent feed is the listing without filter and with limit 20:
    the 20 records (all of them when there are fewer) that come first when the
    collection is sorted by [timestamp] descending. *)
Theorem recent_spec (st : store) :
  get_transactions (mkArgs None None None None (Some 20)) st
  = Some (recent st)
  /\ exists docs,
       recent st = map (fun d => doc_to_json (Some d)) docs
       /\ List.length docs = Nat.min 20 (List.length (txns st))
       /\ (forall d, In d docs -> In d (txns st))
       /\ Sorted timestamp_desc docs
       /\ ((List.length (txns st) <= 20)%nat -> Permutation docs (txns st)).
Proof.
  split.
  - unfold get_transactions. now rewrite cursor_no_filter.
  - exists (apply_limit 20 (sort_desc "timestamp" (txns st))).
    pose proof (sort_desc_Permutation "timestamp" (txns st)) as Hperm.
    split; [reflexivity|]. split; [|split; [|split]].
    + unfold apply_limit. cbn [Z.eqb Z.abs]. rewrite length_firstn.
      now rewrite (Permutation_length Hperm).
    + intros d Hd. apply apply_limit_incl in Hd.
      now apply (Permutation_in _ Hperm).
    + apply apply_limit_Sorted. apply sort_desc_Sorted.
    + intros Hlen. unfold apply_limit. cbn [Z.eqb Z.abs].
      rewrite firstn_all_length; [assumption|].
      now rewrite (Permutation_length Hperm).
Qed.

Lemma recent_spec_witness :
  exists docs,
    recent sample_store = map (fun d => doc_to_json (Some d)) docs
    /\ Permutation docs (txns sample_store).
Proof.
  destruct (proj2 (recent_spec sample_store)) as (docs & H1 & _ & _ & _ & H2).
  exists docs. split; [assumption|]. apply H2. simpl. lia.
Defined.

(** ** The statistics *)

Section StatsFacts.

Lemma stats_total_count (window_start : Z) (st : store) :
  total_count (stats_since window_start st)
  = Z.of_nat (List.length
                (filter (match_gte_timestamp window_start) (txns st))).
Proof.
  unfold stats_since, pipeline_total. cbn [total_count].
  rewrite group_stage_const.
  destruct (filter (match_gte_timestamp window_start) (txns st)) as [|d r];
    [reflexivity|].
  now rewrite accumulate_count_volume.
Qed.

Lemma sum_status_group_add (k : value) (gs : list (value * Z)) :
  sum_status_counts (group_add 0 (fun n => n + 1) k gs)
  = sum_status_counts gs + 1.
Proof.
  unfold sum_status_counts.
  induction gs as [|[k0 a0] r IH]; cbn [group_add map fold_right snd].
  - reflexivity.
  - destruct (bson_eqb k0 k); cbn [map fold_right snd]; [lia|].
    rewrite IH. lia.
Qed.

Lemma sum_status_group_stage (key : document -> value)
    (docs : list document) :
  sum_status_counts (group_stage key 0 (fun (_ : document) n => n + 1) docs)
  = Z.of_nat (List.length docs).
Proof.
  induction docs as [|d docs IH] using rev_ind; [reflexivity|].
  rewrite group_stage_snoc, sum_status_group_add, IH, length_app.
  simpl. lia.
Qed.

Lemma filter_length_Forall2 {X : Type} (f g : X -> bool) (l l' : list X) :
  Forall2 (fun x y => f x = g y) l l' ->
  List.length (filter f l) = List.length (filter g l').
Proof.
  induction 1 as [|x y l l' Hxy Hall IH]; simpl; [reflexivity|].
  rewrite Hxy. destruct (g y); simpl; now rewrite IH.
Qed.

Lemma filter_length_le_imp {X : Type} (f g : X -> bool) (l : list X) :
  (forall x, f x = true -> g x = true) ->
  (List.length (filter f l) <= List.length (filter g l))%nat.
Proof.
  intros H. induction l as [|x r IH]; simpl; [lia|].
  destruct (f x) eqn:E.
  - rewrite (H x E). simpl. lia.
  - destruct (g x); simpl; lia.
Qed.

Lemma match_gte_timestamp_key (ws : Z) (d d' : document) :
  dict_lookup "timestamp" (as_dict d) = dict_lookup "timestamp" (as_dict d') ->
  match_gte_timestamp ws d = match_gte_timestamp ws d'.
Proof. unfold match_gte_timestamp. now intros ->. Qed.

End StatsFacts.

(** X10: the counts of the status groups add up to [total_count]. *)
Theorem stats_status_counts_sum (window_start : Z) (st : store) :
  sum_status_counts (status_data (stats_since window_start st))
  = total_count (stats_since window_start st).
Proof.
  rewrite stats_total_count. unfold stats_since, pipeline_status.
  cbn [status_data]. apply sum_status_group_stage.
Qed.

(** X11: an update never changes how many records a window counts:
    [total_count] is the same before and after any call of
    [update_transaction], whatever the field map. *)
Theorem update_keeps_total_count (utcnow : nat -> Z) (st : store)
    (txn_id : string) (payload : dict) (window_start : Z) :
  total_count
    (stats_since window_start
       (snd (update_transaction utcnow st txn_id payload)))
  = total_count (stats_since window_start st).
Proof.
  rewrite !stats_total_count. f_equal. symmetry.
  apply filter_length_Forall2.
  assert (key_untouched "timestamp" (txns st)
            (txns (snd (update_transaction utcnow st txn_id payload)))) as H.
  { destruct (update_cases utcnow st txn_id payload)
      as [[_ ->]|[(_ & _ & ->)|[(ex & _ & F & _ & ->)
       |[(ex & F & _ & _ & ->)|(ex & F & _ & _ & ->)]]]];
      cbn [snd txns]; try apply key_untouched_refl.
    apply set_first_match_untouched. intros Hin.
    apply filter_update_allowed in Hin. destruct Hin as [_ Hin].
    discriminate Hin. }
  unfold key_untouched in H.
  induction H as [|d d' l l' Hd Hall IH]; constructor; [|assumption].
  now apply match_gte_timestamp_key.
Qed.

(** X12: a later window start never counts more: [total_count] is
    antitone in [window_start], and lies between 0 and the number of stored
    records. *)
Theorem stats_window_antitone (ws1 ws2 : Z) (st : store) :
  ws1 <= ws2 ->
  0 <= total_count (stats_since ws2 st)
    <= total_count (stats_since ws1 st)
  /\ total_count (stats_since ws1 st) <= Z.of_nat (List.length (txns st)).
Proof.
  intros Hle. rewrite !stats_total_count. split; [split|].
  - lia.
  - apply inj_le. apply filter_length_le_imp. intros d.
    unfold match_gte_timestamp.
    destruct (dict_lookup "timestamp" (as_dict d)) as [[]|]; try discriminate.
    rewrite !Z.leb_le. lia.
  - apply inj_le. apply filter_length_le.
Qed.

Lemma stats_window_antitone_witness :
  0 <= total_count (stats_since 1700000050000000 sample_store)
    <= total_count (stats_since 0 sample_store)
  /\ total_count (stats_since 0 sample_store)
     <= Z.of_nat (List.length (txns sample_store)).
Proof.
  apply (stats_window_antitone 0 1700000050000000 sample_store).
  discriminate.
Defined.

(** X13: when no record has a date [timestamp] at or after the window
    start (a record whose [timestamp] is missing or is not a date never
    qualifies), the snapshot is empty: count 0, volume the float 0.0, no
    channel group, no status group; and [total_count] is 0 in that case
    only. *)
Theorem stats_empty_window (window_start : Z) (st : store) :
  ((forall d, In d (txns st) -> match_gte_timestamp window_start d = false) ->
   stats_since window_start st = mkStats 0 (VFloat (FFin 0)) [] [])
  /\ (total_count (stats_since window_start st) = 0 ->
      forall d, In d (txns st) -> match_gte_timestamp window_start d = false).
Proof.
  split.
  - intros H. unfold stats_since, pipeline_total, pipeline_channel,
      pipeline_status.
    now rewrite (filter_none _ _ H).
  - rewrite stats_total_count. intros H d Hd.
    destruct (match_gte_timestamp window_start d) eqn:E; [|reflexivity].
    assert (In d (filter (match_gte_timestamp window_start) (txns st))) as Hin
      by (apply filter_In; auto).
    destruct (filter (match_gte_timestamp window_start) (txns st));
      [destruct Hin | simpl in H; lia].
Qed.

Lemma stats_empty_window_witness :
  stats_since 1800000000000000 sample_store
  = mkStats 0 (VFloat (FFin 0)) [] [].
Proof.
  apply (proj1 (stats_empty_window 1800000000000000 sample_store)).
  intros d [<-|[<-|[<-|[]]]]; reflexivity.
Defined.

(** ** The recent edits *)

Section EditSort.

Lemma insert_edit_desc_Permutation (e : edit) (l : list edit) :
  Permutation (insert_edit_desc e l) (e :: l).
Proof.
  induction l as [|x r IH]; simpl; [reflexivity|].
  destruct (edit_edited_at e <? edit_edited_at x); [|reflexivity].
  rewrite IH. apply perm_swap.
Qed.

Lemma sort_edits_desc_Permutation (l : list edit) :
  Permutation (sort_edits_desc l) l.
Proof.
  induction l as [|e r IH]; simpl; [reflexivity|].
  rewrite insert_edit_desc_Permutation. now constructor.
Qed.

Lemma insert_edit_desc_sorted (e : edit) (l : list edit) :
  StronglySorted edit_desc l -> StronglySorted edit_desc (insert_edit_desc e l).
Proof.
  induction l as [|x r IH]; simpl; intros Hs.
  - constructor; constructor.
  - inversion Hs as [|? ? Hr Hall]; subst.
    destruct (Z.ltb_spec (edit_edited_at e) (edit_edited_at x)).
    + constructor; [now apply IH|].
      apply Forall_forall. intros y Hy.
      apply (Permutation_in _ (insert_edit_desc_Permutation e r)) in Hy.
      destruct Hy as [<-|Hy].
      * unfold edit_desc. lia.
      * rewrite Forall_forall in Hall. now apply Hall.
    + constructor; [assumption|]. constructor.
      * unfold edit_desc. lia.
      * rewrite Forall_forall in Hall |- *. intros y Hy.
        specialize (Hall y Hy). unfold edit_desc in *. lia.
Qed.

Lemma sort_edits_desc_sorted (l : list edit) :
  StronglySorted edit_desc (sort_edits_desc l).
Proof.
  induction l as [|e r IH]; simpl; [constructor|].
  now apply insert_edit_desc_sorted.
Qed.

Lemma sorted_firstn_skipn (l : list edit) (n : nat) :
  StronglySorted edit_desc l ->
  StronglySorted edit_desc (firstn n l)
  /\ forall x y, In x (firstn n l) -> In y (skipn n l) -> edit_desc x y.
Proof.
  revert n. induction l as [|a r IH]; intros n Hs.
  - rewrite firstn_nil, skipn_nil. split; [constructor | intros x y []].
  - destruct n as [|n]; simpl.
    + split; [constructor | intros x y []].
    + inversion Hs as [|? ? Hr Hall]; subst.
      destruct (IH n Hr) as [H1 H2]. rewrite Forall_forall in Hall.
      split.
      * constructor; [assumption|]. apply Forall_forall. intros y Hy.
        apply Hall. rewrite <- (firstn_skipn n r). apply in_or_app. now left.
      * intros x y [<-|Hx] Hy; [|now apply H2].
        apply Hall. rewrite <- (firstn_skipn n r). apply in_or_app. now right.
Qed.

End EditSort.

(** X14: the recent edits of the statistics are the 10 most recent Audit
    Events (all of them when there are fewer), most recent first, as the
    collection returns them, that is with [edited_at] at millisecond
    precision: no event left out is more recent than one that is shown. *)
Theorem recent_edits_spec (st : store) :
  let stored := map read_edit (edits st) in
  let shown := recent_edits_cursor st in
  List.length shown = Nat.min 10 (List.length (edits st))
  /\ StronglySorted edit_desc shown
  /\ exists rest,
       Permutation (shown ++ rest) stored
       /\ forall e e', In e shown -> In e' rest -> edit_desc e e'.
Proof.
  cbv zeta. unfold recent_edits_cursor, apply_limit. cbn [Z.eqb Z.abs].
  pose proof (sort_edits_desc_Permutation (map read_edit (edits st))) as Hperm.
  destruct (sorted_firstn_skipn _ (Z.to_nat 10)
              (sort_edits_desc_sorted (map read_edit (edits st)))) as [H1 H2].
  split; [|split; [assumption|]].
  - rewrite length_firstn, (Permutation_length Hperm), length_map.
    reflexivity.
  - exists (skipn (Z.to_nat 10) (sort_edits_desc (map read_edit (edits st)))).
    split; [now rewrite firstn_skipn | assumption].
Qed.

Lemma recent_edits_spec_witness :
  List.length (recent_edits_cursor sample_edited_store) = 2%nat
  /\ StronglySorted edit_desc (recent_edits_cursor sample_edited_store).
Proof.
  split; [reflexivity|].
  exact (proj1 (proj2 (recent_edits_spec sample_edited_store))).
Defined.

(** ** The operator console *)

Section StripFacts.

Lemma rstrip_empty_iff (s : string) : rstrip s = EmptyString <-> blank s = true.
Proof.
  unfold blank.
  induction s as [|c r IH]; cbn [rstrip list_ascii_of_string forallb].
  - split; reflexivity.
  - rewrite andb_true_iff, <- IH. destruct (rstrip r).
    + destruct (is_space c); split; try discriminate; auto.
      intros [H _]. discriminate H.
    + split; [discriminate|]. intros [_ H]. discriminate H.
Qed.

Lemma lstrip_head (s : string) :
  lstrip s = EmptyString
  \/ exists c r, lstrip s = String c r /\ is_space c = false.
Proof.
  induction s as [|c r IH]; cbn [lstrip]; [now left|].
  destruct (is_space c) eqn:E; [assumption|]. right. now exists c, r.
Qed.

Lemma lstrip_empty_iff (s : string) : lstrip s = EmptyString <-> blank s = true.
Proof.
  unfold blank.
  induction s as [|c r IH]; cbn [lstrip list_ascii_of_string forallb].
  - split; reflexivity.
  - destruct (is_space c); cbn [andb]; [assumption|].
    split; discriminate.
Qed.

Lemma strip_empty_iff (s : string) : strip s = EmptyString <-> blank s = true.
Proof.
  unfold strip. split.
  - intros H. apply rstrip_empty_iff in H.
    destruct (lstrip_head s) as [E|(c & r & E & Hc)].
    + now apply lstrip_empty_iff.
    + rewrite E in H. unfold blank in H.
      cbn [list_ascii_of_string forallb] in H. rewrite Hc in H.
      discriminate H.
  - intros H. apply lstrip_empty_iff in H. now rewrite H.
Qed.

End StripFacts.

Section SearchFacts.

Lemma matches_txn_id_matcher (q : string) (d : document) :
  matches_all [MEq "txn_id" q] d = matches_txn_id q d.
Proof.
  unfold matches_all, matches_txn_id. cbn [forallb matcher_holds].
  rewrite andb_true_r, lookup_as_dict. reflexivity.
Qed.

Lemma txn_like_not_empty (q : string) :
  String.prefix "TXN" (upper_string q) = true -> String.eqb q "" = false.
Proof. destruct q; [discriminate | reflexivity]. Qed.

Lemma truthy_Some (q : string) :
  String.eqb q "" = false -> truthy (Some q) = Some q.
Proof. intros H. unfold truthy. now rewrite H. Qed.

End SearchFacts.

(** X15: a search text of whitespace only (the empty text included), and
    no other, is not sent as a search: the console shows the recent feed. *)
Theorem search_blank (search_input : string) (st : store) :
  (search_request search_input = GetRecent <-> blank search_input = true)
  /\ (blank search_input = true -> search search_input st = Some (recent st)).
Proof.
  assert (search_request search_input = GetRecent
          <-> blank search_input = true) as H.
  { rewrite <- strip_empty_iff. unfold search_request.
    destruct (String.eqb_spec (strip search_input) "") as [E|E].
    - split; auto.
    - split; [|contradiction].
      destruct (String.prefix "TXN" (upper_string (strip search_input)));
        discriminate. }
  split; [assumption|]. intros Hb. apply H in Hb. unfold search.
  now rewrite Hb.
Qed.

Lemma search_blank_witness :
  search "   " sample_store = Some (recent sample_store).
Proof.
  exact (proj2 (search_blank "   " sample_store) eq_refl).
Defined.

(** X16: a search text that, stripped, starts with TXN in any letter case
    is sent as the [txn_id] filter alone: the console shows, newest first and
    up to 100, exactly the records whose [txn_id] is the stripped text
    character for character (the match itself is case-sensitive); payer and
    payee are not searched. *)
Theorem search_by_txn_id (search_input : string) (st : store) :
  let q := strip search_input in
  String.prefix "TXN" (upper_string q) = true ->
  search search_input st
  = Some (map (fun d => doc_to_json (Some d))
            (firstn 100
               (sort_desc "timestamp" (filter (matches_txn_id q) (txns st))))).
Proof.
  cbv zeta. intros Hp. pose proof (txn_like_not_empty _ Hp) as Hne.
  unfold search, search_request. rewrite Hne, Hp.
  unfold get_transactions, cursor.
  cbn [build_query arg_txn_id arg_payer arg_payee arg_status truthy app].
  rewrite Hne.
  cbn [app compile_query compile_condition arg_limit_or_default arg_limit].
  unfold apply_limit. cbn [Z.eqb Z.abs Z.to_nat Pos.to_nat Pos.iter_op Nat.add].
  do 4 f_equal. apply filter_ext. intros d. apply matches_txn_id_matcher.
Qed.

Lemma search_by_txn_id_witness :
  search " txn100001 " sample_store = Some []
  /\ search " TXN100001 " sample_store = Some [doc_to_json (Some TXN100001)].
Proof.
  split.
  - exact (search_by_txn_id " txn100001 " sample_store eq_refl).
  - exact (search_by_txn_id " TXN100001 " sample_store eq_refl).
Defined.

(** X17: any other search text is sent as the filter of both [payer] and
    [payee]: a record is shown only if the text is found (as a
    case-insensitive regular expression; as a case-insensitive substring when
    it has no metacharacter) in its payer and in its payee as well. A record
    that matches in one of the two only is not shown. *)
Theorem search_by_name (search_input : string) (st : store) :
  let q := strip search_input in
  blank search_input = false ->
  String.prefix "TXN" (upper_string q) = false ->
  supported_pattern (Some q) = true ->
  exists docs,
    search search_input st = Some (map (fun d => doc_to_json (Some d)) docs)
    /\ (List.length docs <= 100)%nat
    /\ (forall d, In d docs ->
          In d (txns st)
          /\ has_string "payer" d (regex_found q)
          /\ has_string "payee" d (regex_found q)
          /\ (plain_text q = true ->
              has_string "payer" d (substring_ci q)
              /\ has_string "payee" d (substring_ci q)))
    /\ (forall d, In d (txns st) ->
          ~ has_string "payee" d (regex_found q) -> ~ In d docs).
Proof.
  cbv zeta. intros Hb Hp Hs.
  assert (String.eqb (strip search_input) "" = false) as Hne.
  { destruct (String.eqb_spec (strip search_input) "") as [E|E]; [|reflexivity].
    apply strip_empty_iff in E. congruence. }
  unfold search, search_request. rewrite Hne, Hp.
  set (q := strip search_input) in *.
  set (args := mkArgs None (Some q) (Some q) None (Some 100)).
  destruct (query_compiles args Hs Hs) as [ms [Hc Hms]].
  unfold get_transactions, cursor. rewrite Hc.
  eexists. split; [reflexivity|].
  assert (forall d,
             In d (apply_limit (arg_limit_or_default args)
                     (sort_desc "timestamp" (filter (matches_all ms) (txns st)))) ->
             In d (txns st) /\ satisfies regex_found args d) as Hin.
  { intros d Hd. apply apply_limit_incl in Hd.
    apply (Permutation_in _ (sort_desc_Permutation _ _)) in Hd.
    apply filter_In in Hd. destruct Hd as [Hd Hm]. split; [assumption|].
    now apply Hms. }
  assert (truthy (Some q) = Some q) as Ht by now apply truthy_Some.
  split; [|split].
  - pose proof (apply_limit_length (arg_limit_or_default args)
                  (sort_desc "timestamp" (filter (matches_all ms) (txns st)))
                  eq_refl) as Hlen.
    cbn [arg_limit_or_default args arg_limit] in Hlen |- *. lia.
  - intros d Hd. destruct (Hin d Hd) as [H1 (_ & H2 & H3 & _)].
    specialize (H2 q Ht). specialize (H3 q Ht).
    split; [assumption|]. split; [assumption|]. split; [assumption|].
    intros Hplain. destruct H2 as [x [Hx Hf]], H3 as [y [Hy Hg]]. split.
    + exists x. split; [assumption|]. now apply regex_found_plain.
    + exists y. split; [assumption|]. now apply regex_found_plain.
  - intros d Hd Hno Hshown. destruct (Hin d Hshown) as [_ (_ & _ & H3 & _)].
    apply Hno. now apply H3.
Qed.

Lemma search_by_name_witness :
  exists docs,
    search "bob" sample_store = Some (map (fun d => doc_to_json (Some d)) docs)
    /\ (forall d, In d (txns sample_store) ->
          ~ has_string "payee" d (regex_found "bob") -> ~ In d docs).
Proof.
  destruct (search_by_name "bob" sample_store eq_refl eq_refl eq_refl)
    as (docs & H1 & _ & _ & H2).
  exists docs. split; assumption.
Defined.

Section SaveFacts.

Lemma py_eq_string (a : value) (s : string) :
  py_eq a (VStr s) = true <-> a = VStr s.
Proof.
  destruct a as [|?|?|?|t|?|?]; unfold py_eq; cbn [num_view]; split;
    try discriminate.
  - intros H. apply String.eqb_eq in H. now subst.
  - intros [= ->]. apply String.eqb_refl.
Qed.

Lemma dict_get_string (d : dict) (k s : string) :
  dict_get d k = VStr s -> dict_lookup k d = Some (VStr s).
Proof.
  unfold dict_get. destruct (dict_lookup k d); [congruence | discriminate].
Qed.

(** The record a call on an existing transaction leaves, when the store can
    encode the surviving values: the one it found, when every surviving value
    compares equal, else that one overwritten. *)
Lemma update_found_after (utcnow : nat -> Z) (st : store) (txn_id : string)
    (payload : dict) (existing : document) :
  find_one txn_id (txns st) = Some existing ->
  filter_update payload <> [] ->
  encodable (filter_update payload) = true ->
  let result := update_transaction utcnow st txn_id payload in
  exists updated,
    fst result = Resp200 (doc_to_json (Some updated))
    /\ find_one txn_id (txns (snd result)) = Some updated
    /\ ((updated = existing /\ snd result = st
         /\ all_current existing (filter_update payload) = true)
        \/ updated = set_fields existing (filter_update payload)).
Proof.
  intros F Hne Henc. cbv zeta.
  destruct (update_cases utcnow st txn_id payload)
    as [[E _]|[(_ & F' & _)|[(ex & _ & F' & C & ->)
       |[(ex & F' & _ & _ & ->)|(ex & F' & _ & Henc' & _)]]]];
    try congruence; cbn [fst snd txns];
    assert (ex = existing) as -> by congruence.
  - exists existing. split; [reflexivity|]. split; [assumption|]. left.
    split; [reflexivity|]. split; [reflexivity|].
    apply all_current_iff.
    exact (proj1 (build_changes_nil_iff _ _ _ _ _ _) C).
  - exists (set_fields existing (filter_update payload)).
    split; [reflexivity|]. split; [|now right].
    rewrite find_one_set_first_match by apply txn_id_not_updated. now rewrite F.
Qed.

Lemma found_after_value (existing updated : document) (update : dict)
    (k s : string) :
  NoDup (keys update) -> In (k, VStr s) update -> k <> "_id" ->
  (updated = existing /\ all_current existing update = true)
  \/ updated = set_fields existing update ->
  dict_lookup k (doc_fields updated) = Some (VStr s).
Proof.
  intros Hnd Hin Hk [[-> Hall]| ->].
  - rewrite all_current_iff in Hall. specialize (Hall k (VStr s) Hin).
    apply py_eq_string in Hall. apply dict_get_string in Hall.
    rewrite lookup_as_dict in Hall.
    destruct (String.eqb_spec "_id" k); [congruence | assumption].
  - unfold set_fields. cbn [doc_fields]. now apply set_fields_named.
Qed.

Lemma save_payload_survives (f : form) (payload : dict) :
  save_payload f = Some payload ->
  filter_update payload = payload /\ payload <> []
  /\ In ("payee", VStr (strip (payee_input f))) payload
  /\ In ("channel", VStr (channel_input f)) payload
  /\ In ("status", VStr (status_input f)) payload
  /\ In ("operator", VStr (operator_or_unknown f)) payload
  /\ dict_get_default payload "operator" (VStr "operator_unknown")
     = VStr (operator_or_unknown f)
  /\ (forall q, amount_input f = AmountValue q ->
                In ("amount", VFloat (FFin q)) payload)
  /\ (amount_input f = AmountBlank -> ~ In "amount" (keys payload))
  /\ self_equal payload = true.
Proof.
  unfold save_payload. destruct (amount_input f) as [|q|]; intros [= <-].
  - split; [reflexivity|]. split; [discriminate|].
    cbn [app In]. repeat split; auto 6; try discriminate.
    + intros _ Hin. cbn in Hin. intuition discriminate.
    + unfold self_equal. cbn [forallb snd]. unfold py_eq. cbn [num_view].
      now rewrite !String.eqb_refl.
  - split; [reflexivity|]. split; [discriminate|].
    cbn [app In]. repeat split; auto 6; try discriminate.
    + intros q' [= <-]. auto.
    + unfold self_equal. cbn [forallb snd]. unfold py_eq.
      cbn [num_view float_eqb]. now rewrite !String.eqb_refl, Qeq_bool_refl.
Qed.

Lemma save_payload_encodable (f : form) (payload : dict) :
  save_payload f = Some payload -> encodable payload = true.
Proof.
  unfold save_payload. destruct (amount_input f) as [|q|]; intros [= <-];
    reflexivity.
Qed.

End SaveFacts.

Section SaveTwice.

Lemma update_twice (u1 u2 : nat -> Z) (st : store) (txn_id : string)
    (payload : dict) :
  self_equal (filter_update payload) = true ->
  snd (update_transaction u2 (snd (update_transaction u1 st txn_id payload))
         txn_id payload)
  = snd (update_transaction u1 st txn_id payload).
Proof.
  intros Hself.
  destruct (update_cases u1 st txn_id payload)
    as [[E ->]|[(Hne & F & ->)|[(ex & Hne & F & C & ->)
       |[(ex & F & Hc & _ & ->)|(ex & F & Hc & Henc & ->)]]]];
    cbn [snd].
  - now rewrite update_empty.
  - now rewrite update_missing.
  - rewrite (update_unchanged u2 _ _ _ ex); try assumption; [reflexivity|].
    apply build_changes_nil_iff.
    exact (proj1 (build_changes_nil_iff _ _ _ _ _ _) C).
  - assert (filter_update payload <> []) as Hne.
    { intros E. rewrite E in Hc. now apply Hc. }
    rewrite (update_unchanged u2 _ _ _
               (set_fields ex (filter_update payload)));
      [reflexivity | assumption | |].
    + cbn [txns]. rewrite find_one_set_first_match by apply txn_id_not_updated.
      now rewrite F.
    + apply build_changes_nil_iff. apply all_current_iff.
      apply set_fields_current;
        [apply filter_update_NoDup | apply id_not_updated | assumption].
  - rewrite (update_overflow u2 _ _ _ ex); [reflexivity | assumption | | assumption].
    intros C. apply Hc. apply build_changes_nil_iff.
    exact (proj1 (build_changes_nil_iff _ _ _ _ _ _) C).
Qed.

Lemma save_changes_store (utcnow : nat -> Z) (f : form) (st : store)
    (txn_id : string) (payload : dict) :
  truthy (current_txn_id f) = Some txn_id ->
  save_payload f = Some payload ->
  path_safe txn_id = true ->
  exists outcome,
    save_changes utcnow f st
    = Some (outcome, snd (update_transaction utcnow st txn_id payload)).
Proof.
  intros Ht Hp Hs. unfold save_changes. rewrite Ht, Hp, Hs.
  destruct (fst (update_transaction utcnow st txn_id payload)) as [[b|]| | |];
    try (eexists; reflexivity).
  destruct (dict_lookup "txn_id" b); eexists; reflexivity.
Qed.

End SaveTwice.

(** X18: a save on a selected transaction that exists, with an amount box
    that is blank or holds a number, always succeeds (the field map is never
    empty: it carries payee, channel, status and operator), and the record
    then holds the stripped payee text, the channel, the status and the
    operator of the form (the operator ["operator_unknown"] when its box is
    blank) and an amount equal to the one entered; with a blank amount box
    the amount stays. *)
Theorem save_changes_success (utcnow : nat -> Z) (f : form) (st : store)
    (txn_id : string) (existing : document) :
  truthy (current_txn_id f) = Some txn_id ->
  path_safe txn_id = true ->
  amount_input f <> AmountInvalid ->
  find_one txn_id (txns st) = Some existing ->
  exists st' updated,
    save_changes utcnow f st = Some (SaveOk (VStr txn_id), st')
    /\ find_one txn_id (txns st') = Some updated
    /\ dict_lookup "payee" (doc_fields updated)
       = Some (VStr (strip (payee_input f)))
    /\ dict_lookup "channel" (doc_fields updated)
       = Some (VStr (channel_input f))
    /\ dict_lookup "status" (doc_fields updated)
       = Some (VStr (status_input f))
    /\ dict_lookup "operator" (doc_fields updated)
       = Some (VStr (operator_or_unknown f))
    /\ (forall q, amount_input f = AmountValue q ->
          py_eq (dict_get (as_dict updated) "amount") (VFloat (FFin q))
          = true)
    /\ (amount_input f = AmountBlank ->
        dict_lookup "amount" (doc_fields updated)
        = dict_lookup "amount" (doc_fields existing)).
Proof.
  intros Ht Hsafe Hamount F.
  destruct (save_payload f) as [payload|] eqn:Hp.
  2: { unfold save_payload in Hp. destruct (amount_input f); congruence. }
  destruct (save_payload_survives f payload Hp)
    as (Hfu & Hne & Hpayee & Hchannel & Hstatus & Hop & _ & Hq & Hblank & _).
  pose proof (filter_update_NoDup payload) as Hnd. rewrite Hfu in Hnd.
  assert (filter_update payload <> []) as Hne' by now rewrite Hfu.
  assert (encodable (filter_update payload) = true) as Henc
    by (rewrite Hfu; now apply (save_payload_encodable f)).
  destruct (update_found_after utcnow st txn_id payload existing F Hne' Henc)
    as (updated & Hresp & Hfound & Hcase).
  rewrite Hfu in Hcase.
  assert ((updated = existing /\ all_current existing payload = true)
          \/ updated = set_fields existing payload) as Hcase'
    by (destruct Hcase as [(H1 & _ & H2)|H]; auto).
  exists (snd (update_transaction utcnow st txn_id payload)), updated.
  split.
  - unfold save_changes. rewrite Ht, Hp, Hsafe, Hresp. cbn [doc_to_json].
    rewrite dict_lookup_set_other by discriminate.
    now rewrite (proj2 (found_txn_id _ _ _ Hfound)).
  - split; [assumption|].
    split; [apply (found_after_value existing _ payload); auto; discriminate|].
    split; [apply (found_after_value existing _ payload); auto; discriminate|].
    split; [apply (found_after_value existing _ payload); auto; discriminate|].
    split; [apply (found_after_value existing _ payload); auto; discriminate|].
    split.
    + intros q Ha. specialize (Hq q Ha).
      destruct Hcase' as [[-> Hall]| ->].
      * rewrite all_current_iff in Hall. exact (Hall _ _ Hq).
      * unfold dict_get. rewrite lookup_as_dict.
        cbn [String.eqb Ascii.eqb Bool.eqb].
        unfold set_fields. cbn [doc_fields].
        rewrite (set_fields_named payload _ "amount" _ Hnd Hq).
        unfold py_eq. cbn [num_view float_eqb]. apply Qeq_bool_refl.
    + intros Ha. specialize (Hblank Ha).
      destruct Hcase' as [[-> _]| ->]; [reflexivity|].
      unfold set_fields. cbn [doc_fields]. now apply set_fields_other.
Qed.

Lemma save_changes_success_witness :
  exists st' updated,
    save_changes clock sample_form sample_store
    = Some (SaveOk (VStr "TXN100001"), st')
    /\ find_one "TXN100001" (txns st') = Some updated
    /\ dict_lookup "payee" (doc_fields updated) = Some (VStr "MerchantB").
Proof.
  destruct (save_changes_success clock sample_form sample_store "TXN100001"
              TXN100001 eq_refl eq_refl ltac:(discriminate) eq_refl)
    as (st' & updated & H1 & H2 & H3 & _).
  exists st', updated. repeat split; assumption.
Defined.

(** X19: the operator is written on the record and diffed like a field:
    a save on a record whose [operator] is not the one of the form (a record
    never saved before has none) appends exactly one Audit Event for the
    field [operator], from the record's value to the form's, whatever else
    the form changes. *)
Theorem save_changes_logs_operator (utcnow : nat -> Z) (f : form)
    (st : store) (txn_id : string) (existing : document) :
  truthy (current_txn_id f) = Some txn_id ->
  path_safe txn_id = true ->
  amount_input f <> AmountInvalid ->
  find_one txn_id (txns st) = Some existing ->
  dict_get (as_dict existing) "operator" <> VStr (operator_or_unknown f) ->
  exists outcome st' t,
    save_changes utcnow f st = Some (outcome, st')
    /\ events_for "operator" (appended_edits st st')
       = [mkEdit txn_id "operator" (dict_get (as_dict existing) "operator")
            (VStr (operator_or_unknown f)) (VStr (operator_or_unknown f)) t].
Proof.
  intros Ht Hsafe Hamount F Hop.
  destruct (save_payload f) as [payload|] eqn:Hp.
  2: { unfold save_payload in Hp. destruct (amount_input f); congruence. }
  destruct (save_payload_survives f payload Hp)
    as (Hfu & _ & _ & _ & _ & Hin & Hby & _).
  destruct (save_changes_store utcnow f st _ _ Ht Hp Hsafe) as [outcome Hsave].
  exists outcome, (snd (update_transaction utcnow st txn_id payload)).
  destruct (update_appends utcnow st txn_id payload) as [_ Happ].
  rewrite Happ, F, Hfu, (save_payload_encodable f payload Hp).
  pose proof (filter_update_NoDup payload) as Hnd. rewrite Hfu in Hnd.
  destruct (build_changes_field_one utcnow txn_id (as_dict existing) payload
              payload 0 "operator" _ Hnd Hin) as [t Ht'].
  - destruct (py_eq (dict_get (as_dict existing) "operator")
                (VStr (operator_or_unknown f))) eqn:E; [|reflexivity].
    apply py_eq_string in E. contradiction.
  - exists t. split; [assumption|]. rewrite Ht'. now rewrite Hby.
Qed.

Lemma save_changes_logs_operator_witness :
  exists outcome st' t,
    save_changes clock sample_form sample_store = Some (outcome, st')
    /\ events_for "operator" (appended_edits sample_store st')
       = [mkEdit "TXN100001" "operator" VNone (VStr "alice") (VStr "alice") t].
Proof.
  apply (save_changes_logs_operator clock sample_form sample_store "TXN100001"
           TXN100001 eq_refl eq_refl).
  - discriminate.
  - reflexivity.
  - discriminate.
Defined.

(** X20: saving the same form twice in a row changes nothing the second
    time: the second save appends no Audit Event and leaves the store as the
    first save left it. *)
Theorem save_changes_twice (u1 u2 : nat -> Z) (f : form) (st : store)
    (outcome : save_outcome) (s1 : store) :
  save_changes u1 f st = Some (outcome, s1) ->
  exists outcome', save_changes u2 f s1 = Some (outcome', s1).
Proof.
  intros H1. unfold save_changes in H1 |- *.
  destruct (truthy (current_txn_id f)) as [txn_id|] eqn:Ht.
  - destruct (save_payload f) as [payload|] eqn:Hp.
    + destruct (path_safe txn_id) eqn:Hs; [|discriminate].
      destruct (save_payload_survives f payload Hp)
        as (Hfu & _ & _ & _ & _ & _ & _ & _ & _ & Hself).
      rewrite <- Hfu in Hself.
      pose proof (update_twice u1 u2 st txn_id payload Hself) as Htwice.
      assert (s1 = snd (update_transaction u1 st txn_id payload)) as ->.
      { destruct (fst (update_transaction u1 st txn_id payload))
          as [[b|]| | |]; try congruence.
        destruct (dict_lookup "txn_id" b); congruence. }
      rewrite Htwice.
      destruct (fst (update_transaction u2 _ txn_id payload)) as [[b|]| | |];
        try (eexists; reflexivity).
      destruct (dict_lookup "txn_id" b); eexists; reflexivity.
    + injection H1 as _ <-. eexists; reflexivity.
  - injection H1 as _ <-. eexists; reflexivity.
Qed.

Lemma save_changes_twice_witness :
  exists outcome s1 outcome',
    save_changes clock sample_form sample_store = Some (outcome, s1)
    /\ save_changes clock sample_form s1 = Some (outcome', s1).
Proof.
  assert (save_changes clock sample_form sample_store
          = Some (SaveOk (VStr "TXN100001"),
                  snd (update_transaction clock sample_store "TXN100001"
                         [("payee", VStr "MerchantB");
                          ("amount", VFloat (FFin (500 # 1)));
                          ("channel", VStr "UPI"); ("status", VStr "Pending");
                          ("operator", VStr "alice")]))) as H
    by reflexivity.
  destruct (save_changes_twice clock clock _ _ _ _ H) as [o' Ho].
  eexists. eexists. exists o'. split; [exact H | exact Ho].
Defined.

(** ** More on the update engine *)

Section MoreUpdateFacts.

(** Under [==] a value differs from itself only when it is NaN. *)
Lemma py_eq_refl_iff (v : value) : py_eq v v = true <-> not_nan v = true.
Proof.
  destruct v as [|b|z|[|b|q]|s|t|s]; unfold py_eq;
    cbn [num_view float_eqb not_nan]; split; try reflexivity;
    try discriminate; intros _.
  - apply Qeq_bool_refl.
  - apply Qeq_bool_refl.
  - apply Bool.eqb_reflx.
  - apply Qeq_bool_refl.
  - apply String.eqb_refl.
  - apply Z.eqb_refl.
  - apply String.eqb_refl.
Qed.

Lemma keep_allowed_filter (payload acc : dict) :
  NoDup (keys acc ++ keys payload) ->
  fold_left keep_allowed payload acc
  = acc ++ filter (fun kv => is_allowed (fst kv)) payload.
Proof.
  revert acc. induction payload as [|[k v] r IH]; intros acc Hnd.
  - cbn [fold_left filter]. now rewrite app_nil_r.
  - cbn [fold_left filter fst]. unfold keep_allowed at 2. cbn [fst snd].
    assert (~ In k (keys acc)) as Hk.
    { intros Hin. apply NoDup_remove_2 in Hnd. apply Hnd.
      apply in_or_app. now left. }
    destruct (is_allowed k).
    + assert (dict_set acc k v = acc ++ [(k, v)]) as ->.
      { clear -Hk. induction acc as [|[k0 v0] a IHa]; [reflexivity|].
        cbn [dict_set app]. cbn [keys map fst In] in Hk.
        destruct (String.eqb_spec k0 k) as [->|_]; [tauto|].
        rewrite IHa; [reflexivity | tauto]. }
      rewrite IH.
      * now rewrite <- app_assoc.
      * unfold keys in *. rewrite map_app, <- app_assoc. exact Hnd.
    + apply IH. apply NoDup_remove_1 in Hnd. exact Hnd.
Qed.

End MoreUpdateFacts.

(** X21: on a field map that is a Python dict (no key twice), the first
    loop of [update_transaction] is a filter: the surviving field map is the
    payload's entries with an allowed key, in the payload's order and with the
    payload's values. *)
Theorem filter_update_is_filter (payload : dict) :
  NoDup (keys payload) ->
  filter_update payload = filter (fun kv => is_allowed (fst kv)) payload.
Proof.
  intros Hnd. unfold filter_update.
  now rewrite keep_allowed_filter.
Qed.

Lemma filter_update_is_filter_witness :
  filter_update
    (("txn_id", VStr "TXN1") :: ("unknown_field", VStr "x") :: scenario_payload)
  = scenario_payload.
Proof.
  apply (filter_update_is_filter
           (("txn_id", VStr "TXN1") :: ("unknown_field", VStr "x")
            :: scenario_payload)).
  repeat constructor; cbn; intuition discriminate.
Defined.

(** X22: an update that submits a status (a non-empty string) for an
    existing transaction, with surviving values the store can encode (every
    integer within 64 bits), is seen by the listing: on the store after the
    call, the unlimited listing filtered by that status contains the record
    of the transaction, and the record carries that status. *)
Theorem update_status_then_list (utcnow : nat -> Z) (st : store)
    (txn_id : string) (payload : dict) (existing : document) (s : string) :
  find_one txn_id (txns st) = Some existing ->
  dict_lookup "status" (filter_update payload) = Some (VStr s) ->
  s <> "" ->
  encodable (filter_update payload) = true ->
  let st' := snd (update_transaction utcnow st txn_id payload) in
  exists docs updated,
    cursor (mkArgs None None None (Some s) (Some 0)) (txns st') = Some docs
    /\ find_one txn_id (txns st') = Some updated
    /\ In updated docs
    /\ dict_lookup "status" (doc_fields updated) = Some (VStr s).
Proof.
  intros F Hlook Hs Henc. cbv zeta.
  assert (filter_update payload <> []) as Hne
    by (intros E; rewrite E in Hlook; discriminate).
  destruct (update_found_after utcnow st txn_id payload existing F Hne Henc)
    as (updated & _ & Hfound & Hcase).
  assert (dict_lookup "status" (doc_fields updated) = Some (VStr s))
    as Hstatus.
  { apply (found_after_value existing updated (filter_update payload));
      [apply filter_update_NoDup | now apply dict_lookup_In | discriminate |].
    destruct Hcase as [(H1 & _ & H2)|H]; auto. }
  assert (String.eqb s "" = false) as Hs' by now apply String.eqb_neq.
  eexists. exists updated.
  split; [|split; [exact Hfound|split; [|exact Hstatus]]].
  - unfold cursor.
    cbn [build_query arg_txn_id arg_payer arg_payee arg_status truthy app].
    rewrite Hs'.
    cbn [compile_query compile_condition arg_limit_or_default arg_limit].
    rewrite apply_limit_zero. reflexivity.
  - apply (Permutation_in _ (Permutation_sym (sort_desc_Permutation _ _))).
    apply filter_In. split; [now apply find_some in Hfound|].
    unfold matches_all. cbn [forallb matcher_holds].
    rewrite lookup_as_dict. cbn [String.eqb Ascii.eqb Bool.eqb].
    rewrite Hstatus. now rewrite String.eqb_refl.
Qed.

Lemma update_status_then_list_witness :
  exists docs updated,
    cursor (mkArgs None None None (Some "Success") (Some 0))
      (txns (snd (update_transaction clock sample_store "TXN100001"
                    scenario_payload)))
    = Some docs
    /\ find_one "TXN100001"
         (txns (snd (update_transaction clock sample_store "TXN100001"
                       scenario_payload)))
       = Some updated
    /\ In updated docs
    /\ dict_lookup "status" (doc_fields updated) = Some (VStr "Success").
Proof.
  apply (update_status_then_list clock sample_store "TXN100001"
           scenario_payload TXN100001 "Success").
  - reflexivity.
  - reflexivity.
  - discriminate.
  - reflexivity.
Defined.
